(** * WikiGameLLM: a shallow embedding of [llmBot.py]

    The class [WikiGameLLMBot] plays the Wiki Game: it walks from a start
    article to a target article, asking a language model which link to
    follow.  The bot object, the process environment and the traffic with
    the outside world (Wikipedia, the language model, the console) are
    modelled by explicit state passing in a state-and-exception monad; the
    external collaborators themselves are the fields of a record [World].
    A Python [str] is the string of the bytes of its UTF-8 encoding. *)

From Stdlib Require Import ZArith List String Ascii Lia.
From stdpp Require Import base option list strings gmap pretty.

Local Open Scope string_scope.
Local Open Scope list_scope.
Local Open Scope Z_scope.

(** ** Python values

    The objects the bot moves around: [str], [int], and tuples of them
    ([take_turn] returns [self.target_topic, 1] on one of its paths). *)

#[local] Unset Elimination Schemes.
Inductive value : Type :=
| VStr (s : string)
| VInt (z : Z)
| VTuple (items : list value).
#[local] Set Elimination Schemes.

(** Python's [==] on these values. *)
Fixpoint value_eqb (a b : value) {struct a} : bool :=
  match a, b with
  | VStr s, VStr t => bool_decide (s = t)
  | VInt x, VInt y => bool_decide (x = y)
  | VTuple l, VTuple m =>
      (fix all2 (l : list value) (m : list value) {struct l} : bool :=
         match l, m with
         | [], [] => true
         | x :: l', y :: m' => value_eqb x y && all2 l' m'
         | _, _ => false
         end) l m
  | _, _ => false
  end.

(** [x in xs] for a Python list (or set) [xs]. *)
Definition py_in (x : value) (xs : list value) : bool :=
  existsb (value_eqb x) xs.

(** ** Exceptions *)

Inductive exn : Type :=
| AssertionError (msg : string)
| IndexError
| KeyError (key : string)
| AttributeError (msg : string)
| TypeError (msg : string)
| ExternalError (msg : string).

Inductive result (A : Type) : Type :=
| Ok (a : A)
| Raised (e : exn).
Arguments Ok {A} a.
Arguments Raised {A} e.

(** ** String operations of the Python runtime *)

(** [s.split(sep)] for a one-character separator: never empty. *)
Fixpoint split (sep : ascii) (s : string) : list string :=
  match s with
  | EmptyString => [EmptyString]
  | String c s' =>
      if bool_decide (c = sep) then EmptyString :: split sep s'
      else match split sep s' with
           | [] => [String c EmptyString]
           | h :: t => String c h :: t
           end
  end.

(** [sep.join(xs)]. *)
Fixpoint join (sep : string) (xs : list string) : string :=
  match xs with
  | [] => ""
  | [x] => x
  | x :: rest => x +:+ sep +:+ join sep rest
  end.

(** [s.replace(a, b)] for one-character [a] and [b]. *)
Fixpoint replace (a b : ascii) (s : string) : string :=
  match s with
  | EmptyString => EmptyString
  | String c s' => String (if bool_decide (c = a) then b else c) (replace a b s')
  end.

(** [s * n]. *)
Fixpoint repeat_str (s : string) (n : nat) : string :=
  match n with
  | O => ""
  | S n' => s +:+ repeat_str s n'
  end.

(** Whether a byte continues a UTF-8 character (bit pattern 10xxxxxx). *)
Definition continuation (c : ascii) : bool :=
  match c with
  | Ascii _ _ _ _ _ _ b6 b7 => b7 && negb b6
  end.

(** [s[:n]]: the first [n] characters of [s].  A character is a leading
    byte with the continuation bytes that follow it. *)
Fixpoint str_take (n : nat) (s : string) : string :=
  match s with
  | EmptyString => EmptyString
  | String c s' =>
      if continuation c then String c (str_take n s')
      else match n with
           | O => EmptyString
           | S n' => String c (str_take n' s')
           end
  end.

(** [s.startswith(p)]. *)
Fixpoint startswith (p s : string) : bool :=
  match p, s with
  | EmptyString, _ => true
  | String a p', String c s' => bool_decide (a = c) && startswith p' s'
  | String _ _, EmptyString => false
  end.

(** Whether character [c] occurs in [s]. *)
Fixpoint contains (c : ascii) (s : string) : bool :=
  match s with
  | EmptyString => false
  | String d s' => bool_decide (d = c) || contains c s'
  end.

(** Truth value of an optional string argument: [None] and [''] are false. *)
Definition truthy (o : option string) : bool :=
  match o with
  | None | Some EmptyString => false
  | Some (String _ _) => true
  end.

(** [repr(s)] of a string: single quotes, or double quotes when [s] has
    a single quote and no double quote; the quote in use and the backslash
    are escaped, tab, newline and carriage return are spelled [\t], [\n],
    [\r], the other control characters of ASCII as [\xhh].  Characters
    outside ASCII are copied: they are taken to be printable. *)
Definition hex_digit (n : N) : ascii :=
  ascii_of_N (if (n <? 10)%N then 48 + n else 87 + n)%N.

Definition hex_escape (c : ascii) : string :=
  "\x" +:+ String (hex_digit (N_of_ascii c / 16)%N)
            (String (hex_digit (N_of_ascii c mod 16)%N) EmptyString).

Definition escape_char (quote c : ascii) : string :=
  if bool_decide (c = quote) || bool_decide (c = "\"%char)
  then String "\" (String c EmptyString)
  else if bool_decide (c = "009"%char) then "\t"
  else if bool_decide (c = "010"%char) then "\n"
  else if bool_decide (c = "013"%char) then "\r"
  else if (N_of_ascii c <? 32)%N || (N_of_ascii c =? 127)%N then hex_escape c
  else String c EmptyString.

Fixpoint escape (quote : ascii) (s : string) : string :=
  match s with
  | EmptyString => EmptyString
  | String c s' => escape_char quote c +:+ escape quote s'
  end.

Definition str_repr (s : string) : string :=
  let quote :=
    if contains "'" s && negb (contains "034" s) then "034"%char else "'"%char in
  String quote (escape quote s +:+ String quote EmptyString).

(** [str(v)] and [repr(v)], as used by [str.format] and f-strings. *)
Fixpoint py_repr (v : value) : string :=
  match v with
  | VStr s => str_repr s
  | VInt z => pretty z
  | VTuple [x] => "(" +:+ py_repr x +:+ ",)"
  | VTuple items => "(" +:+ join ", " (map py_repr items) +:+ ")"
  end.

Definition py_str (v : value) : string :=
  match v with
  | VStr s => s
  | _ => py_repr v
  end.

(** [v.replace('_', ' ')]: only [str] has the method. *)
Definition py_replace (v : value) : result string :=
  match v with
  | VStr s => Ok (replace "_" " " s)
  | VInt _ => Raised (AttributeError "'int' object has no attribute 'replace'")
  | VTuple _ => Raised (AttributeError "'tuple' object has no attribute 'replace'")
  end.

(** [xs[i]] on a list. *)
Definition index {A : Type} (xs : list A) (i : nat) : result A :=
  match xs !! i with
  | Some x => Ok x
  | None => Raised IndexError
  end.

(** [visited.add(x)] on a Python set, kept as a duplicate-free list. *)
Definition set_add (x : value) (xs : list value) : list value :=
  if py_in x xs then xs else xs ++ [x].

(** ** The outside world

    [funcs.py] (Wikipedia helpers), [wikipediaapi], the chat client and
    [difflib] are collaborators of the class; each is a field here.  A
    Wikipedia page object is identified with the title it was requested
    by, so the helpers take the title.  The language model may answer the
    same prompt differently each time: its reply depends on the number of
    earlier calls. *)

Record response : Type := {
  content : string;
  response_repr : string
}.

Record World : Type := {
  getpass : string -> string;
  search_wiki : string -> result string;
  get_random_wiki_page : nat -> result string;
  get_page_summary : value -> result string;
  validate_pages : value -> result (list string);
  llm_invoke : nat -> string -> result response;
  get_close_matches : string -> list string -> list string
}.

(** ** Program state

    [environ] is [os.environ.get("NVIDIA_API_KEY")]; [llm_calls] are the
    prompts sent so far and [stdout] the lines printed, oldest first.  The
    remaining fields are the attributes of [self]; an attribute that has
    not been assigned yet is [None]. *)

Record State : Type := {
  environ : option string;
  random_draws : nat;
  llm_calls : list string;
  stdout : list string;
  game_log : gmap string (list value);
  printouts : list (list string);
  start_topic : option string;
  target_topic : option string;
  current_summary : option string
}.

Definition set_environ (x : option string) (s : State) : State :=
  {| environ := x; random_draws := random_draws s; llm_calls := llm_calls s;
     stdout := stdout s; game_log := game_log s; printouts := printouts s;
     start_topic := start_topic s; target_topic := target_topic s;
     current_summary := current_summary s |}.
Definition set_random_draws (x : nat) (s : State) : State :=
  {| environ := environ s; random_draws := x; llm_calls := llm_calls s;
     stdout := stdout s; game_log := game_log s; printouts := printouts s;
     start_topic := start_topic s; target_topic := target_topic s;
     current_summary := current_summary s |}.
Definition set_llm_calls (x : list string) (s : State) : State :=
  {| environ := environ s; random_draws := random_draws s; llm_calls := x;
     stdout := stdout s; game_log := game_log s; printouts := printouts s;
     start_topic := start_topic s; target_topic := target_topic s;
     current_summary := current_summary s |}.
Definition set_stdout (x : list string) (s : State) : State :=
  {| environ := environ s; random_draws := random_draws s; llm_calls := llm_calls s;
     stdout := x; game_log := game_log s; printouts := printouts s;
     start_topic := start_topic s; target_topic := target_topic s;
     current_summary := current_summary s |}.
Definition set_game_log (x : gmap string (list value)) (s : State) : State :=
  {| environ := environ s; random_draws := random_draws s; llm_calls := llm_calls s;
     stdout := stdout s; game_log := x; printouts := printouts s;
     start_topic := start_topic s; target_topic := target_topic s;
     current_summary := current_summary s |}.
Definition set_printouts (x : list (list string)) (s : State) : State :=
  {| environ := environ s; random_draws := random_draws s; llm_calls := llm_calls s;
     stdout := stdout s; game_log := game_log s; printouts := x;
     start_topic := start_topic s; target_topic := target_topic s;
     current_summary := current_summary s |}.
Definition set_start_topic (x : option string) (s : State) : State :=
  {| environ := environ s; random_draws := random_draws s; llm_calls := llm_calls s;
     stdout := stdout s; game_log := game_log s; printouts := printouts s;
     start_topic := x; target_topic := target_topic s;
     current_summary := current_summary s |}.
Definition set_target_topic (x : option string) (s : State) : State :=
  {| environ := environ s; random_draws := random_draws s; llm_calls := llm_calls s;
     stdout := stdout s; game_log := game_log s; printouts := printouts s;
     start_topic := start_topic s; target_topic := x;
     current_summary := current_summary s |}.
Definition set_current_summary (x : option string) (s : State) : State :=
  {| environ := environ s; random_draws := random_draws s; llm_calls := llm_calls s;
     stdout := stdout s; game_log := game_log s; printouts := printouts s;
     start_topic := start_topic s; target_topic := target_topic s;
     current_summary := x |}.

(** The process before any bot exists. *)
Definition boot (key : option string) : State :=
  {| environ := key; random_draws := O; llm_calls := []; stdout := [];
     game_log := ∅; printouts := []; start_topic := None;
     target_topic := None; current_summary := None |}.

(** ** The monad: state that survives an exception *)

Definition M (A : Type) : Type := State -> result A * State.

Definition ret {A} (a : A) : M A := fun s => (Ok a, s).
Definition raise {A} (e : exn) : M A := fun s => (Raised e, s).
Definition bind {A B} (c : M A) (k : A -> M B) : M B :=
  fun s => match c s with
           | (Ok a, s') => k a s'
           | (Raised e, s') => (Raised e, s')
           end.
Definition lift {A} (r : result A) : M A := fun s => (r, s).
Definition modify (f : State -> State) : M unit := fun s => (Ok tt, f s).
Definition attr (name : string) (f : State -> option string) : M string :=
  fun s => match f s with
           | Some x => (Ok x, s)
           | None => (Raised (AttributeError name), s)
           end.
Definition assert (b : bool) (msg : string) : M unit :=
  if b then ret tt else raise (AssertionError msg).
Definition print (line : string) : M unit :=
  modify (fun s => set_stdout (stdout s ++ [line]) s).

Notation "x <~ c ;; k" := (bind c (fun x => k))
  (at level 100, c at next level, right associativity).
Notation "c ;;; k" := (bind c (fun _ => k))
  (at level 100, right associativity).

(** ** The class [WikiGameLLMBot] *)

Section Bot.

Variable w : World.

(** One draw of [get_random_wiki_page(self.wiki_wiki)]. *)
Definition random_page : M string :=
  fun s => (get_random_wiki_page w (random_draws s),
            set_random_draws (S (random_draws s)) s).

(** [self.llm.invoke(prompt)]: the call is recorded whether or not the
    service answers. *)
Definition invoke (prompt : string) : M response :=
  fun s => (llm_invoke w (length (llm_calls s)) prompt,
            set_llm_calls (llm_calls s ++ [prompt]) s).

(** The five lists [__init__] puts into [self.game_log]. *)
Definition empty_log : gmap string (list value) :=
  <["starting_topic" := []]> (<["target_topic" := []]> (<["turn" := []]>
    (<["current_topic" := []]> (<["current_summary" := []]> ∅)))).

(** [get_topics] (lines 120-142). *)
Definition get_topics (start target : option string) : M unit :=
  (if truthy start
   then t <~ lift (search_wiki w (default "" start)) ;;
        modify (set_start_topic (Some t))
   else t <~ random_page ;; modify (set_start_topic (Some t))) ;;;
  (if truthy target
   then t <~ lift (search_wiki w (default "" target)) ;;
        modify (set_target_topic (Some t))
   else t <~ random_page ;; modify (set_target_topic (Some t))).

(** The credential step of [__init__] (lines 74-79). *)
Definition credentials : M unit :=
  fun s =>
    if negb (startswith "nvapi-" (default "" (environ s))) then
      let nvidia_api_key := getpass w "Enter your NVIDIA API key: " in
      (assert (startswith "nvapi-" nvidia_api_key)
              (str_take 5 nvidia_api_key +:+ "... is not a valid key") ;;;
       modify (set_environ (Some nvidia_api_key))) s
    else ret tt s.

(** [__init__] up to the resolution of the two topics (lines 74-100).
    The chat client [self.llm], the unused [self.memory] and
    [self.wiki_wiki] are handles on [w]. *)
Definition resolve_topics (start target : option string) : M unit :=
  credentials ;;;
  modify (set_game_log empty_log) ;;;
  modify (set_printouts []) ;;;
  get_topics start target.

(** [__init__] (lines 53-103).  The page object fetched last is a lazy
    handle that is never read. *)
Definition __init__ (start target : option string) : M unit :=
  resolve_topics start target ;;;
  s <~ attr "start_topic" start_topic ;;
  t <~ attr "target_topic" target_topic ;;
  assert (negb (bool_decide (s = t)))
         "Please enter different start and target topics.".

(** [self.game_log[key].append(val)]. *)
Definition log_append (key : string) (val : value) : M unit :=
  fun s => match game_log s !! key with
           | Some l => (Ok tt, set_game_log (<[key := l ++ [val]]> (game_log s)) s)
           | None => (Raised (KeyError key), s)
           end.

(** [log_turn] (lines 105-118): the items of [turn_dict] in order. *)
Fixpoint log_turn (turn_dict : list (string * value)) : M unit :=
  match turn_dict with
  | [] => ret tt
  | (key, val) :: rest => log_append key val ;;; log_turn rest
  end.

(** The candidate list of [take_turn]: the comprehension of line 169,
    then the slice of line 170. *)
Definition unvisited (links : list string) (visited : list value) : list string :=
  List.filter (fun page => negb (py_in (VStr page) visited)) links.

Definition candidates (links : list string) (visited : list value) : list string :=
  take 25 (unvisited links visited).

(** The prompt (lines 175-191). *)
Definition template (source target current links : string) : string :=
  "You must are playing the Wikipedia Game where you must find a chain of
Wikipedia pages that connect a source topic to a target topic. Your source topic was "
  +:+ source +:+ "
and your target topic is " +:+ target +:+
  ". You are currently at the topic of " +:+ current +:+ ", and you must select
a new topic from the linked pages here that will make it likely for you to connect to the target topic
soon. Your possible choices are:

" +:+ links +:+ "

Select the topic above most likely to route you to " +:+ target +:+
  " as fast as possible. Format your output as:
Next topic=<topic here>
".

(** [response.content.split('=')[1]] (line 198). *)
Definition proposedPage (reply : string) : result string :=
  index (split "=" reply) 1.

(** [take_turn] (lines 144-205). *)
Definition take_turn (current_topic : value) (visited : list value) : M value :=
  summary <~ lift (get_page_summary w current_topic) ;;
  modify (set_current_summary (Some summary)) ;;;
  links <~ lift (validate_pages w current_topic) ;;
  let pages := candidates links visited in
  target <~ attr "target_topic" target_topic ;;
  if py_in (VStr target) (map VStr pages) then
    ret (VTuple [VStr target; VInt 1])
  else
    source <~ attr "start_topic" start_topic ;;
    let prompt := template source target (py_str current_topic) (join "
" pages) in
    print prompt ;;;
    reply <~ invoke prompt ;;
    print "Response" ;;;
    print (response_repr reply) ;;;
    print "Parsed Response" ;;;
    proposed <~ lift (proposedPage (content reply)) ;;
    print proposed ;;;
    print "Most similar page" ;;;
    most_similar <~ lift (index (get_close_matches w proposed pages) 0) ;;
    print most_similar ;;;
    ret (VStr most_similar).

(** The local variables of [play_game]. *)
Record locals : Type := {
  turn_num : Z;
  current_topic : value;
  visited : list value
}.

(** The progress block of a verbose turn (lines 254-268). *)
Definition report (l : locals) (next_topic : value) : M unit :=
  source <~ attr "start_topic" start_topic ;;
  current <~ lift (py_replace (current_topic l)) ;;
  next <~ lift (py_replace next_topic) ;;
  target <~ attr "target_topic" target_topic ;;
  let block :=
    [ repeat_str "-" 50;
      "Turn: " +:+ pretty (turn_num l);
      "Start topic: " +:+ replace "_" " " source;
      "Current topic: " +:+ current;
      "Next topic: " +:+ next;
      "Target topic: " +:+ replace "_" " " target ] in
  modify (fun s => set_printouts (printouts s ++ [block]) s) ;;;
  modify (fun s => set_stdout (stdout s ++ block) s).

(** The dictionary handed to [log_turn] (lines 245-251); its first two
    entries are both [self.start_topic]. *)
Definition turn_dict (source : string) (turn_num : Z) (current_topic : value)
    (summary : string) : list (string * value) :=
  [ ("starting_topic", VStr source);
    ("target_topic", VStr source);
    ("turn", VInt turn_num);
    ("current_topic", current_topic);
    ("current_summary", VStr summary) ].

(** One iteration of the [while True] loop (lines 232-274).  The two
    clock readings feed a variable that is never used. *)
Definition turn (verbose : bool) (l : locals) : M locals :=
  let visited' := set_add (current_topic l) (visited l) in
  next_topic <~ take_turn (current_topic l) visited' ;;
  source <~ attr "start_topic" start_topic ;;
  summary <~ attr "current_summary" current_summary ;;
  log_turn (turn_dict source (turn_num l) (current_topic l) summary) ;;;
  (if verbose then report l next_topic else ret tt) ;;;
  ret {| turn_num := turn_num l + 1;
         current_topic := next_topic;
         visited := visited' |}.

(** The first [n] iterations of the loop. *)
Fixpoint turns (verbose : bool) (n : nat) (l : locals) {struct n} : M locals :=
  match n with
  | O => ret l
  | S n' => l' <~ turn verbose l ;; turns verbose n' l'
  end.

(** [play_game] (lines 207-274), observed after [n] iterations.  The
    loop has no exit: the call ends by an exception or not at all. *)
Definition play_game (verbose : bool) (n : nat) : M locals :=
  source <~ attr "start_topic" start_topic ;;
  turns verbose n {| turn_num := 1; current_topic := VStr source; visited := [] |}.

End Bot.

(** ** Concrete worlds

    [xmas]: the page "Test" links to "Christmas" (the scenario of the
    class's usage note); the model answers "Quiz" first and "Exam" from
    then on.  [far]: the page "Start" has thirty valid links
    "L0" ... "L29" and the model always answers [Next topic=L3=x].
    In these worlds the matcher returns the candidate equal to the
    proposal, which is also what [difflib] ranks first. *)

Definition exact_match (proposal : string) (pages : list string) : list string :=
  take 1 (List.filter (fun page => bool_decide (page = proposal)) pages).

Definition xmas : World :=
  {| getpass := fun _ => "nvapi-0000";
     search_wiki := fun q => Ok q;
     get_random_wiki_page := fun n => Ok ("Random_" +:+ pretty n);
     get_page_summary := fun v => Ok ("About " +:+ py_str v);
     validate_pages := fun v =>
       match v with
       | VStr "Test" => Ok ["Exam"; "Christmas"; "Quiz"]
       | _ => Ok ["Exam"; "Quiz"]
       end;
     llm_invoke := fun n _ =>
       match n with
       | O => Ok {| content := "Next topic=Quiz";
                    response_repr := "content='Next topic=Quiz'" |}
       | _ => Ok {| content := "Next topic=Exam";
                    response_repr := "content='Next topic=Exam'" |}
       end;
     get_close_matches := exact_match |}.

Definition thirty : list string :=
  map (fun i : nat => "L" +:+ pretty i) (seq 0 30).

Definition far : World :=
  {| getpass := fun _ => "nvapi-0000";
     search_wiki := fun q => Ok q;
     get_random_wiki_page := fun n => Ok ("Random_" +:+ pretty n);
     get_page_summary := fun v => Ok ("About " +:+ py_str v);
     validate_pages := fun _ => Ok thirty;
     llm_invoke := fun _ _ =>
       Ok {| content := "Next topic=L3=x"; response_repr := "content='Next topic=L3=x'" |};
     get_close_matches := exact_match |}.

(** A world whose model forgets the delimiter. *)
Definition mute : World :=
  {| getpass := fun _ => "nvapi-0000";
     search_wiki := fun q => Ok q;
     get_random_wiki_page := fun n => Ok ("Random_" +:+ pretty n);
     get_page_summary := fun v => Ok ("About " +:+ py_str v);
     validate_pages := fun _ => Ok ["Exam"; "Quiz"];
     llm_invoke := fun _ _ =>
       Ok {| content := "I would pick Quiz"; response_repr := "content='I would pick Quiz'" |};
     get_close_matches := exact_match |}.

(** A world whose user types a key of the wrong shape. *)
Definition locked : World :=
  {| getpass := fun _ => "secret-key";
     search_wiki := fun q => Ok q;
     get_random_wiki_page := fun n => Ok ("Random_" +:+ pretty n);
     get_page_summary := fun v => Ok ("About " +:+ py_str v);
     validate_pages := fun _ => Ok ["Exam"; "Quiz"];
     llm_invoke := fun _ _ =>
       Ok {| content := "Next topic=Quiz"; response_repr := "content='Next topic=Quiz'" |};
     get_close_matches := exact_match |}.

(** A world whose user types a key with accents. *)
Definition accented : World :=
  {| getpass := fun _ => "ééééé-key";
     search_wiki := fun q => Ok q;
     get_random_wiki_page := fun n => Ok ("Random_" +:+ pretty n);
     get_page_summary := fun v => Ok ("About " +:+ py_str v);
     validate_pages := fun _ => Ok ["Exam"; "Quiz"];
     llm_invoke := fun _ _ =>
       Ok {| content := "Next topic=Quiz"; response_repr := "content='Next topic=Quiz'" |};
     get_close_matches := exact_match |}.

(** A world whose random page is always the same. *)
Definition stuck : World :=
  {| getpass := fun _ => "nvapi-0000";
     search_wiki := fun q => Ok q;
     get_random_wiki_page := fun _ => Ok "Main_Page";
     get_page_summary := fun v => Ok ("About " +:+ py_str v);
     validate_pages := fun _ => Ok ["Exam"; "Quiz"];
     llm_invoke := fun _ _ =>
       Ok {| content := "Next topic=Quiz"; response_repr := "content='Next topic=Quiz'" |};
     get_close_matches := exact_match |}.

(** The state [__init__] leaves for the game from [a] to [b]. *)
Definition session (a b : string) : State :=
  {| environ := Some "nvapi-0000"; random_draws := O; llm_calls := [];
     stdout := []; game_log := empty_log; printouts := [];
     start_topic := Some a; target_topic := Some b; current_summary := None |}.

(** ** Reference notions the statements compare against *)

(** The whole remainder of [s] after the first [sep] (empty when [sep]
    does not occur). *)
Fixpoint after_first (sep : ascii) (s : string) : string :=
  match s with
  | EmptyString => EmptyString
  | String c s' => if bool_decide (c = sep) then s' else after_first sep s'
  end.

(** The part of [s] before the first [sep] (all of [s] when [sep] does
    not occur). *)
Fixpoint before_first (sep : ascii) (s : string) : string :=
  match s with
  | EmptyString => EmptyString
  | String c s' =>
      if bool_decide (c = sep) then EmptyString else String c (before_first sep s')
  end.

(** A Python tuple of exactly three items. *)
Definition is_triple (v : value) : bool :=
  match v with
  | VTuple [_; _; _] => true
  | _ => false
  end.

(** The keys of the game log. *)
Definition log_keys : list string :=
  ["starting_topic"; "target_topic"; "turn"; "current_topic"; "current_summary"].

(** What one dictionary does to the log: the value of every key of the
    dictionary goes to the end of that key's list; nothing else moves. *)
Definition logged (g : gmap string (list value)) (dict : list (string * value))
    (key : string) : option (list value) :=
  match (list_to_map dict : gmap string value) !! key with
  | Some val => (fun xs => xs ++ [val]) <$> g !! key
  | None => g !! key
  end.

(** A matcher that only answers from the list it is given, as
    [difflib.get_close_matches] does. *)
Definition answers_from_list (w : World) : Prop :=
  forall proposed pages c,
    get_close_matches w proposed pages !! 0%nat = Some c -> c ∈ pages.

(** No article title occurs twice in a list of topics. *)
Definition no_title_twice (topics : list value) : Prop :=
  forall i j c, (i < j)%nat ->
    topics !! i = Some (VStr c) -> topics !! j = Some (VStr c) -> False.

(** The six lines of a progress block, once the topics are strings. *)
Definition progress_block (n : Z) (source current next target : string)
    : list string :=
  [ repeat_str "-" 50;
    "Turn: " +:+ pretty n;
    "Start topic: " +:+ replace "_" " " source;
    "Current topic: " +:+ replace "_" " " current;
    "Next topic: " +:+ replace "_" " " next;
    "Target topic: " +:+ replace "_" " " target ].

(** The number of random pages [get_topics] asks for. *)
Definition omitted (name : option string) : nat :=
  if truthy name then O else 1%nat.

(** * Properties *)

(** ** Values and strings *)

Lemma value_ind' (P : value -> Prop) :
  (forall s, P (VStr s)) ->
  (forall z, P (VInt z)) ->
  (forall items, Forall P items -> P (VTuple items)) ->
  forall v, P v.
Proof.
  intros Hs Hz Ht. fix IH 1. intros [s|z|items].
  - apply Hs.
  - apply Hz.
  - apply Ht. revert items. fix IHl 1. intros [|x l].
    + constructor.
    + constructor; [apply IH | apply IHl].
Qed.

Lemma value_eqb_eq (a b : value) : value_eqb a b = true <-> a = b.
Proof.
  revert b. induction a as [s|z|items IH] using value_ind'; intros [t|y|m]; simpl;
    try (split; [discriminate | congruence]).
  - rewrite bool_decide_eq_true. split; congruence.
  - rewrite bool_decide_eq_true. split; congruence.
  - revert m. induction IH as [|x l Hx Hl IHl]; intros [|y m];
      try (split; [discriminate | congruence]).
    + split; reflexivity.
    + rewrite andb_true_iff, Hx. specialize (IHl m). split.
      * intros [-> H]. apply IHl in H. congruence.
      * intros H. injection H as -> ->. split; [reflexivity|].
        apply IHl. reflexivity.
Qed.

Lemma py_in_elem (x : value) (xs : list value) : py_in x xs = true <-> x ∈ xs.
Proof.
  unfold py_in. rewrite existsb_exists. split.
  - intros (y & Hy & Heq). apply value_eqb_eq in Heq as ->.
    by apply list_elem_of_In.
  - intros H. exists x. split; [by apply list_elem_of_In | by apply value_eqb_eq].
Qed.

Lemma py_in_strings (p : string) (pages : list string) :
  py_in (VStr p) (map VStr pages) = true <-> p ∈ pages.
Proof.
  rewrite py_in_elem. change (map VStr pages) with (VStr <$> pages).
  rewrite list_elem_of_fmap. split.
  - intros (q & Heq & Hq). congruence.
  - eauto.
Qed.

Lemma split_without (sep : ascii) (s : string) :
  contains sep s = false -> split sep s = [s].
Proof.
  induction s as [|c s IH]; simpl; [reflexivity|].
  intros H. apply orb_false_iff in H as [Hc Hs].
  rewrite Hc, (IH Hs). reflexivity.
Qed.

Lemma split_head (sep : ascii) (s : string) :
  exists rest, split sep s = before_first sep s :: rest.
Proof.
  induction s as [|c s [rest IH]]; simpl; [by eexists|].
  case_bool_decide; [by eexists|]. rewrite IH. by eexists.
Qed.

Lemma split_tail (sep : ascii) (s : string) :
  contains sep s = true ->
  split sep s = before_first sep s :: split sep (after_first sep s).
Proof.
  induction s as [|c s IH]; simpl; [discriminate|].
  case_bool_decide; simpl; [reflexivity|].
  intros Hs. rewrite (IH Hs). reflexivity.
Qed.


(** ** The candidate list *)

(** C5.  The candidate list [take_turn] builds from the links of the
    current page has at most 25 entries, and no element of the visited
    collection passed in occurs in it. *)
Theorem candidates_bounded_unvisited (links : list string) (visited : list value) :
  (length (candidates links visited) <= 25)%nat /\
  forall v, v ∈ visited -> v ∉ map VStr (candidates links visited).
Proof.
  split.
  - unfold candidates. rewrite length_take. lia.
  - intros v Hv Hin. change (map VStr ?l) with (VStr <$> l) in Hin.
    apply list_elem_of_fmap in Hin as (page & -> & Hpage).
    unfold candidates in Hpage. apply subseteq_take in Hpage.
    apply list_elem_of_In, filter_In in Hpage as [_ Hfresh].
    apply py_in_elem in Hv. rewrite Hv in Hfresh. discriminate.
Qed.

(** ** Parsing the reply *)




(** ** One turn *)

Section Turn.

Variable w : World.

(** What a turn leaves alone, whatever its outcome. *)
Lemma take_turn_frame (cur : value) (visited : list value) (s : State) :
  let s' := snd (take_turn w cur visited s) in
  game_log s' = game_log s /\ start_topic s' = start_topic s /\
  target_topic s' = target_topic s /\ printouts s' = printouts s /\
  environ s' = environ s.
Proof.
  unfold take_turn, bind, lift, modify, attr, print, invoke, ret. simpl.
  repeat (case_match; simpl in *; simplify_eq; try done).
Qed.

(** The short-circuit path: nothing but [self.current_summary] moves. *)
Lemma take_turn_pair (cur : value) (visited : list value) (s : State)
    (summary : string) (links : list string) (target : string) :
  get_page_summary w cur = Ok summary ->
  validate_pages w cur = Ok links ->
  target_topic s = Some target ->
  target ∈ candidates links visited ->
  take_turn w cur visited s
    = (Ok (VTuple [VStr target; VInt 1]), set_current_summary (Some summary) s).
Proof.
  intros Hsum Hlinks Htarget Hin.
  unfold take_turn, bind, lift, modify, attr, ret.
  rewrite Hsum, Hlinks. simpl. rewrite Htarget.
  apply py_in_strings in Hin. rewrite Hin. reflexivity.
Qed.

(** C1.  When the target topic is in the candidate list, [take_turn]
    returns the pair of the target topic and the confidence 1, and only
    [self.current_summary] has changed: the model has not been called. *)
Theorem take_turn_short_circuit (cur : value) (visited : list value) (s : State)
    (summary : string) (links : list string) (target : string) :
  get_page_summary w cur = Ok summary ->
  validate_pages w cur = Ok links ->
  target_topic s = Some target ->
  target ∈ candidates links visited ->
  take_turn w cur visited s
    = (Ok (VTuple [VStr target; VInt 1]), set_current_summary (Some summary) s) /\
  llm_calls (snd (take_turn w cur visited s)) = llm_calls s.
Proof.
  intros Hsum Hlinks Htarget Hin.
  pose proof (take_turn_pair cur visited s summary links target
                Hsum Hlinks Htarget Hin) as Heq.
  split; [exact Heq|]. rewrite Heq. reflexivity.
Qed.

(** The model-driven path up to the model's reply. *)
Lemma take_turn_model_path (cur : value) (visited : list value) (s : State)
    (summary : string) (links : list string) (target source : string) :
  get_page_summary w cur = Ok summary ->
  validate_pages w cur = Ok links ->
  target_topic s = Some target ->
  start_topic s = Some source ->
  target ∉ candidates links visited ->
  let pages := candidates links visited in
  let prompt := template source target (py_str cur) (join "
" pages) in
  let s1 := set_llm_calls (llm_calls s ++ [prompt])
              (set_stdout (stdout s ++ [prompt])
                 (set_current_summary (Some summary) s)) in
  take_turn w cur visited s =
    match llm_invoke w (length (llm_calls s)) prompt with
    | Raised e => (Raised e, s1)
    | Ok reply =>
        (print "Response" ;;;
         print (response_repr reply) ;;;
         print "Parsed Response" ;;;
         proposed <~ lift (proposedPage (content reply)) ;;
         print proposed ;;;
         print "Most similar page" ;;;
         most_similar <~ lift (index (get_close_matches w proposed pages) 0) ;;
         print most_similar ;;;
         ret (VStr most_similar)) s1
    end.
Proof.
  intros Hsum Hlinks Htarget Hsource Hnot. simpl.
  unfold take_turn.
  unfold bind at 1. unfold lift at 1. rewrite Hsum.
  unfold bind at 1. unfold modify at 1.
  unfold bind at 1. unfold lift at 1. rewrite Hlinks.
  unfold bind at 1. unfold attr at 1. simpl. rewrite Htarget.
  destruct (py_in (VStr target) (map VStr (candidates links visited))) eqn:Hin.
  { apply py_in_strings in Hin. contradiction. }
  unfold bind at 1. unfold attr at 1. simpl. rewrite Hsource.
  unfold bind at 1. unfold print at 1, modify at 1.
  unfold bind at 1. unfold invoke at 1. simpl.
  destruct (llm_invoke w _ _); reflexivity.
Qed.

(** C10.  The test for the target comes after the cut to 25 entries.
    With the target among the first 25 unvisited valid links the pair is
    returned and the model is left alone; with the target anywhere else,
    also further down the same list, the prompt is sent to the model and
    the pair is not returned. *)
Theorem short_circuit_within_first_25 (cur : value) (visited : list value)
    (s : State) (summary : string) (links : list string) (target source : string) :
  get_page_summary w cur = Ok summary ->
  validate_pages w cur = Ok links ->
  target_topic s = Some target ->
  start_topic s = Some source ->
  let first25 := take 25 (unvisited links visited) in
  let prompt := template source target (py_str cur) (join "
" first25) in
  let out := take_turn w cur visited s in
  (target ∈ first25 ->
   fst out = Ok (VTuple [VStr target; VInt 1]) /\ llm_calls (snd out) = llm_calls s) /\
  (target ∉ first25 ->
   fst out <> Ok (VTuple [VStr target; VInt 1]) /\
   llm_calls (snd out) = llm_calls s ++ [prompt]).
Proof.
  intros Hsum Hlinks Htarget Hsource first25 prompt out. split; intros Hin.
  - subst out.
    rewrite (take_turn_pair cur visited s summary links target
               Hsum Hlinks Htarget Hin).
    split; reflexivity.
  - pose proof (take_turn_model_path cur visited s summary links target source
                  Hsum Hlinks Htarget Hsource Hin) as Heq.
    simpl in Heq. subst out prompt first25.
    change (take 25 (unvisited links visited)) with (candidates links visited).
    rewrite Heq. clear Heq.
    destruct (llm_invoke w _ _) as [reply|e];
      [|split; [discriminate | reflexivity]].
    unfold bind, print, modify, lift, ret. simpl.
    destruct (proposedPage (content reply)) as [proposed|e]; simpl;
      [|split; [discriminate | reflexivity]].
    destruct (index (get_close_matches w proposed (candidates links visited)) 0)
      as [c|e]; simpl; split; (discriminate || reflexivity).
Qed.

(** C7.  On the model-driven path, a reply without ['='] makes
    [take_turn] raise [IndexError] at the parsing step: no next topic is
    selected. *)
Theorem take_turn_no_delimiter (cur : value) (visited : list value) (s : State)
    (summary : string) (links : list string) (target source : string)
    (reply : response) :
  get_page_summary w cur = Ok summary ->
  validate_pages w cur = Ok links ->
  target_topic s = Some target ->
  start_topic s = Some source ->
  target ∉ candidates links visited ->
  llm_invoke w (length (llm_calls s))
    (template source target (py_str cur) (join "
" (candidates links visited))) = Ok reply ->
  contains "=" (content reply) = false ->
  fst (take_turn w cur visited s) = Raised IndexError.
Proof.
  intros Hsum Hlinks Htarget Hsource Hnot Hreply Hno.
  pose proof (take_turn_model_path cur visited s summary links target source
                Hsum Hlinks Htarget Hsource Hnot) as Heq.
  simpl in Heq. rewrite Heq, Hreply.
  unfold bind, print, modify, lift, proposedPage. simpl.
  rewrite (split_without _ _ Hno). reflexivity.
Qed.

(** What a call that returns normally has done, path by path. *)
Lemma take_turn_Ok (cur : value) (visited : list value) (s s' : State)
    (v : value) :
  take_turn w cur visited s = (Ok v, s') ->
  exists summary links target,
    get_page_summary w cur = Ok summary /\
    current_summary s' = Some summary /\
    validate_pages w cur = Ok links /\
    target_topic s = Some target /\
    (target ∈ candidates links visited -> v = VTuple [VStr target; VInt 1]) /\
    (target ∉ candidates links visited ->
     exists proposed most_similar,
       get_close_matches w proposed (candidates links visited) !! 0%nat
         = Some most_similar /\
       v = VStr most_similar).
Proof.
  intros Hrun.
  destruct (get_page_summary w cur) as [summary|e] eqn:Hsum;
    [|unfold take_turn, bind, lift in Hrun; rewrite Hsum in Hrun; discriminate].
  destruct (validate_pages w cur) as [links|e] eqn:Hlinks;
    [|unfold take_turn, bind, lift, modify in Hrun;
      rewrite Hsum, Hlinks in Hrun; discriminate].
  destruct (target_topic s) as [target|] eqn:Htarget;
    [|unfold take_turn, bind, lift, modify, attr in Hrun;
      rewrite Hsum, Hlinks in Hrun; simpl in Hrun; rewrite Htarget in Hrun;
      discriminate].
  destruct (decide (target ∈ candidates links visited)) as [Hin|Hnot].
  - rewrite (take_turn_pair cur visited s summary links target
               Hsum Hlinks Htarget Hin) in Hrun.
    injection Hrun as <- <-. exists summary, links, target.
    repeat split. contradiction.
  - destruct (start_topic s) as [source|] eqn:Hsource.
    2:{ unfold take_turn, bind, lift, modify, attr in Hrun.
        rewrite Hsum, Hlinks in Hrun. simpl in Hrun. rewrite Htarget in Hrun.
        destruct (py_in _ _) eqn:Hpy; [by apply py_in_strings in Hpy|].
        simpl in Hrun. rewrite Hsource in Hrun. discriminate. }
    pose proof (take_turn_model_path cur visited s summary links target source
                  Hsum Hlinks Htarget Hsource Hnot) as Heq.
    simpl in Heq. rewrite Heq in Hrun. clear Heq.
    destruct (llm_invoke w _ _) as [reply|e]; [|discriminate].
    unfold bind, print, modify, lift, ret in Hrun. simpl in Hrun.
    destruct (proposedPage (content reply)) as [proposed|e]; [|discriminate].
    simpl in Hrun. unfold index in Hrun.
    destruct (get_close_matches w proposed (candidates links visited) !! 0%nat)
      as [c|] eqn:Hc; [|discriminate].
    simpl in Hrun. injection Hrun as <- <-. exists summary, links, target.
    repeat split; [contradiction|]. eauto.
Qed.

(** C4, as the code has it.  A call that returns normally, on either
    path, has stored the summary of the current page in
    [self.current_summary] and does not return it: the value returned is
    never a triple. *)
Theorem take_turn_returns (cur : value) (visited : list value) (s s' : State)
    (v : value) :
  take_turn w cur visited s = (Ok v, s') ->
  is_triple v = false /\
  exists summary,
    get_page_summary w cur = Ok summary /\
    current_summary s' = Some summary.
Proof.
  intros Hrun.
  destruct (take_turn_Ok cur visited s s' v Hrun)
    as (summary & links & target & Hsum & Hcur & Hlinks & Htarget & Hshort & Hmodel).
  split.
  - destruct (decide (target ∈ candidates links visited)) as [Hin|Hnot].
    + rewrite (Hshort Hin). reflexivity.
    + destruct (Hmodel Hnot) as (proposed & c & _ & ->). reflexivity.
  - exists summary. split; assumption.
Qed.

End Turn.

Lemma take_turn_short_circuit_witness :
  "Christmas" ∈ candidates ["Exam"; "Christmas"; "Quiz"] [VStr "Test"] /\
  take_turn xmas (VStr "Test") [VStr "Test"] (session "Test" "Christmas")
    = (Ok (VTuple [VStr "Christmas"; VInt 1]),
       set_current_summary (Some "About Test") (session "Test" "Christmas")) /\
  llm_calls (snd (take_turn xmas (VStr "Test") [VStr "Test"]
                    (session "Test" "Christmas"))) = [].
Proof.
  assert ("Christmas" ∈ candidates ["Exam"; "Christmas"; "Quiz"] [VStr "Test"])
    as Hin by (apply (bool_decide_unpack _); vm_compute; exact I).
  split; [exact Hin|].
  exact (take_turn_short_circuit xmas (VStr "Test") [VStr "Test"]
           (session "Test" "Christmas") "About Test"
           ["Exam"; "Christmas"; "Quiz"] "Christmas"
           eq_refl eq_refl eq_refl Hin).
Defined.

(** In [far] the target "L26" is the 27th unvisited valid link: it is on
    the page, the pair is not returned, and the model is called. *)
Lemma short_circuit_within_first_25_witness :
  "L26" ∈ unvisited thirty [VStr "Start"] /\
  ("L26" ∉ take 25 (unvisited thirty [VStr "Start"])) /\
  fst (take_turn far (VStr "Start") [VStr "Start"] (session "Start" "L26"))
    <> Ok (VTuple [VStr "L26"; VInt 1]) /\
  length (llm_calls (snd (take_turn far (VStr "Start") [VStr "Start"]
                            (session "Start" "L26")))) = 1%nat.
Proof.
  assert ("L26" ∉ take 25 (unvisited thirty [VStr "Start"])) as Hnot
    by (apply (bool_decide_unpack _); vm_compute; exact I).
  split; [apply (bool_decide_unpack _); vm_compute; exact I|].
  split; [exact Hnot|].
  destruct (short_circuit_within_first_25 far (VStr "Start") [VStr "Start"]
              (session "Start" "L26") "About Start" thirty "L26" "Start"
              eq_refl eq_refl eq_refl eq_refl) as [_ Hmodel].
  destruct (Hmodel Hnot) as [Hne Hcalls].
  split; [exact Hne|]. rewrite Hcalls. reflexivity.
Defined.

Lemma take_turn_no_delimiter_witness :
  contains "=" "I would pick Quiz" = false /\
  fst (take_turn mute (VStr "Start") [VStr "Start"] (session "Start" "Goal"))
    = Raised IndexError.
Proof.
  split; [reflexivity|].
  apply (take_turn_no_delimiter mute (VStr "Start") [VStr "Start"]
           (session "Start" "Goal") "About Start" ["Exam"; "Quiz"] "Goal" "Start"
           {| content := "I would pick Quiz";
              response_repr := "content='I would pick Quiz'" |});
    try reflexivity.
  apply (bool_decide_unpack _); vm_compute; exact I.
Defined.

(** C4, as the spec has it, fails: the short-circuit turn of [xmas]
    returns a pair. *)
Lemma take_turn_not_a_triple :
  fst (take_turn xmas (VStr "Test") [VStr "Test"] (session "Test" "Christmas"))
    = Ok (VTuple [VStr "Christmas"; VInt 1]) /\
  is_triple (VTuple [VStr "Christmas"; VInt 1]) = false.
Proof. split; reflexivity. Qed.

Lemma take_turn_returns_witness :
  take_turn xmas (VStr "Test_2") [VStr "Test_2"] (session "Test" "Christmas")
    = (Ok (VStr "Quiz"),
       snd (take_turn xmas (VStr "Test_2") [VStr "Test_2"]
              (session "Test" "Christmas"))) /\
  is_triple (VStr "Quiz") = false.
Proof.
  assert (take_turn xmas (VStr "Test_2") [VStr "Test_2"] (session "Test" "Christmas")
          = (Ok (VStr "Quiz"),
             snd (take_turn xmas (VStr "Test_2") [VStr "Test_2"]
                    (session "Test" "Christmas")))) as Hrun by reflexivity.
  split; [exact Hrun|].
  exact (proj1 (take_turn_returns xmas _ _ _ _ _ Hrun)).
Defined.

(** ** Sequencing *)

Lemma bind_Ok {A B : Type} (c : M A) (k : A -> M B) (s s' : State) (b : B) :
  bind c k s = (Ok b, s') ->
  exists a s1, c s = (Ok a, s1) /\ k a s1 = (Ok b, s').
Proof.
  unfold bind. destruct (c s) as [[a|e] s1]; [eauto | discriminate].
Qed.

Lemma bind_run {A B : Type} (c : M A) (k : A -> M B) (s s1 : State) (a : A) :
  c s = (Ok a, s1) -> bind c k s = k a s1.
Proof. unfold bind. intros ->. reflexivity. Qed.

(** ** Construction *)

Section Construction.

Variable w : World.

Lemma get_topics_sets (start target : option string) (s s1 : State) :
  get_topics w start target s = (Ok tt, s1) ->
  game_log s1 = game_log s /\
  exists a b, start_topic s1 = Some a /\ target_topic s1 = Some b.
Proof.
  unfold get_topics, bind, lift, modify, random_page.
  repeat (case_match; simpl in *; simplify_eq; try done); intros;
    simplify_eq; simpl; eauto.
Qed.

Lemma resolve_topics_sets (start target : option string) (s s1 : State) :
  resolve_topics w start target s = (Ok tt, s1) ->
  game_log s1 = empty_log /\
  exists a b, start_topic s1 = Some a /\ target_topic s1 = Some b.
Proof.
  unfold resolve_topics. intros H.
  apply bind_Ok in H as ([] & sa & _ & H).
  apply bind_Ok in H as ([] & sb & Hb & H).
  apply bind_Ok in H as ([] & sc & Hc & H).
  apply get_topics_sets in H as [Hlog Hset].
  unfold modify in Hb, Hc. simplify_eq. simpl in Hlog. auto.
Qed.

(** C6.  Once the two topics are resolved, construction raises the
    assertion error when they are equal and succeeds when they differ;
    every successfully constructed bot has different start and target
    topics. *)
Theorem init_distinct_topics (start target : option string) (s0 : State) :
  (forall s1, resolve_topics w start target s0 = (Ok tt, s1) ->
     exists a b, start_topic s1 = Some a /\ target_topic s1 = Some b /\
       (a = b -> __init__ w start target s0
                 = (Raised (AssertionError
                      "Please enter different start and target topics."), s1)) /\
       (a <> b -> __init__ w start target s0 = (Ok tt, s1))) /\
  (forall s', __init__ w start target s0 = (Ok tt, s') ->
     exists a b, start_topic s' = Some a /\ target_topic s' = Some b /\ a <> b).
Proof.
  assert (forall s1, resolve_topics w start target s0 = (Ok tt, s1) ->
     exists a b, start_topic s1 = Some a /\ target_topic s1 = Some b /\
       __init__ w start target s0
       = if bool_decide (a = b)
         then (Raised (AssertionError
                 "Please enter different start and target topics."), s1)
         else (Ok tt, s1)) as Hrun.
  { intros s1 Hres.
    destruct (resolve_topics_sets _ _ _ _ Hres) as (_ & a & b & Ha & Hb).
    exists a, b. repeat split; try assumption.
    unfold __init__. rewrite (bind_run _ _ _ _ _ Hres).
    unfold bind, attr. rewrite Ha, Hb.
    case_bool_decide; reflexivity. }
  split.
  - intros s1 Hres. destruct (Hrun s1 Hres) as (a & b & Ha & Hb & Heq).
    exists a, b. repeat split; try assumption; intros Hab; rewrite Heq.
    + by rewrite bool_decide_eq_true_2.
    + by rewrite bool_decide_eq_false_2.
  - intros s' Hinit. pose proof Hinit as Hinit'. unfold __init__ in Hinit'.
    apply bind_Ok in Hinit' as ([] & s1 & Hres & _).
    destruct (Hrun s1 Hres) as (a & b & Ha & Hb & Heq).
    rewrite Heq in Hinit. case_bool_decide; [discriminate|].
    injection Hinit as <-. eauto.
Qed.

Lemma init_game_log (start target : option string) (s0 s1 : State) :
  __init__ w start target s0 = (Ok tt, s1) ->
  game_log s1 = empty_log /\ exists a, start_topic s1 = Some a.
Proof.
  intros Hinit. pose proof Hinit as Hinit'. unfold __init__ in Hinit'.
  apply bind_Ok in Hinit' as ([] & s2 & Hres & Hrest).
  destruct (resolve_topics_sets _ _ _ _ Hres) as (Hlog & a & b & Ha & Hb).
  unfold bind, attr, assert in Hrest. rewrite Ha, Hb in Hrest.
  destruct (negb _); [|discriminate]. injection Hrest as <-. eauto.
Qed.

End Construction.

(** Both outcomes of the check in [xmas]: the same topic twice is refused,
    two topics are accepted. *)
Lemma init_distinct_topics_witness :
  __init__ xmas (Some "Test") (Some "Test") (boot None)
    = (Raised (AssertionError "Please enter different start and target topics."),
       session "Test" "Test") /\
  __init__ xmas (Some "Test") (Some "Christmas") (boot None)
    = (Ok tt, session "Test" "Christmas").
Proof.
  split.
  - destruct (proj1 (init_distinct_topics xmas (Some "Test") (Some "Test") (boot None))
                (session "Test" "Test") eq_refl)
      as (a & b & Ha & Hb & Hsame & _).
    apply Hsame. simpl in Ha, Hb. congruence.
  - destruct (proj1 (init_distinct_topics xmas (Some "Test") (Some "Christmas")
                       (boot None))
                (session "Test" "Christmas") eq_refl)
      as (a & b & Ha & Hb & _ & Hdiff).
    apply Hdiff. simpl in Ha, Hb. congruence.
Defined.

(** ** The game log *)

Lemma set_game_log_same (s : State) : set_game_log (game_log s) s = s.
Proof. destruct s. reflexivity. Qed.

Lemma log_turn_spec (dict : list (string * value)) (s s' : State) :
  NoDup dict.*1 ->
  log_turn dict s = (Ok tt, s') ->
  s' = set_game_log (game_log s') s /\
  forall key, game_log s' !! key = logged (game_log s) dict key.
Proof.
  revert s. induction dict as [|[k v] rest IH]; intros s Hnodup Hrun.
  - injection Hrun as <-. split; [by rewrite set_game_log_same|].
    intros key. unfold logged. simpl. by rewrite lookup_empty.
  - simpl in Hnodup. apply NoDup_cons in Hnodup as [Hfresh Hnodup].
    simpl in Hrun. apply bind_Ok in Hrun as ([] & s1 & Hk & Hrest).
    unfold log_append in Hk.
    destruct (game_log s !! k) as [xs|] eqn:Hxs; [|discriminate].
    injection Hk as <-.
    destruct (IH _ Hnodup Hrest) as [Hs' Hlog]. split.
    + rewrite Hs'. reflexivity.
    + intros key. rewrite Hlog. unfold logged. simpl.
      destruct (decide (k = key)) as [<-|Hne].
      * rewrite lookup_insert_eq.
        rewrite (not_elem_of_list_to_map_1 _ _ Hfresh).
        rewrite lookup_insert_eq, Hxs. reflexivity.
      * rewrite !(lookup_insert_ne _ k key) by done. reflexivity.
Qed.

Lemma turn_dict_keys (source : string) (n : Z) (current : value) (summary : string) :
  (turn_dict source n current summary).*1 = log_keys.
Proof. reflexivity. Qed.

Lemma log_keys_NoDup : NoDup log_keys.
Proof. apply (bool_decide_unpack _). vm_compute. exact I. Qed.

Section Game.

Variable w : World.

Lemma attr_Ok (name : string) (f : State -> option string) (s s' : State)
    (x : string) :
  attr name f s = (Ok x, s') -> s' = s /\ f s = Some x.
Proof.
  unfold attr. destruct (f s); [|discriminate]. intros H. by simplify_eq.
Qed.

Lemma report_frame (l : locals) (next : value) (s : State) :
  let s' := snd (report l next s) in
  game_log s' = game_log s /\ start_topic s' = start_topic s /\
  target_topic s' = target_topic s.
Proof.
  unfold report, bind, lift, modify, attr. simpl.
  repeat (case_match; simpl in *; simplify_eq; try done).
Qed.

(** One completed iteration: the counter moves by one, the two topics
    stay, and the log receives the dictionary of the turn. *)
Lemma turn_spec (verbose : bool) (l l' : locals) (s s' : State) :
  turn w verbose l s = (Ok l', s') ->
  turn_num l' = turn_num l + 1 /\
  start_topic s' = start_topic s /\
  target_topic s' = target_topic s /\
  exists source summary,
    start_topic s = Some source /\
    forall key,
      game_log s' !! key
      = logged (game_log s)
          (turn_dict source (turn_num l) (current_topic l) summary) key.
Proof.
  unfold turn. intros Hrun.
  apply bind_Ok in Hrun as (next & s1 & Htake & Hrun).
  apply bind_Ok in Hrun as (source & s2 & Hsource & Hrun).
  apply bind_Ok in Hrun as (summary & s3 & Hsummary & Hrun).
  apply bind_Ok in Hrun as ([] & s4 & Hlog & Hrun).
  apply bind_Ok in Hrun as ([] & s5 & Hreport & Hrun).
  injection Hrun as <- <-.
  apply attr_Ok in Hsource as [-> Hsource], Hsummary as [-> Hsummary].
  destruct (take_turn_frame w (current_topic l)
              (set_add (current_topic l) (visited l)) s) as (Hg & Hst & Htg & _).
  rewrite Htake in Hg, Hst, Htg. simpl in Hg, Hst, Htg.
  apply log_turn_spec in Hlog as [Hs4 Hlog];
    [|rewrite turn_dict_keys; apply log_keys_NoDup].
  assert (game_log s5 = game_log s4 /\ start_topic s5 = start_topic s4 /\
          target_topic s5 = target_topic s4) as (Hg5 & Hst5 & Htg5).
  { destruct verbose.
    - pose proof (report_frame l next s4) as Hfr. rewrite Hreport in Hfr.
      exact Hfr.
    - injection Hreport as <-. done. }
  rewrite Hs4 in Hst5, Htg5. simpl in Hst5, Htg5.
  split; [reflexivity|]. split; [congruence|]. split; [congruence|].
  exists source, summary. split; [congruence|].
  intros key. rewrite Hg5, Hlog, Hg. reflexivity.
Qed.

Lemma turns_app (verbose : bool) (m k : nat) (l : locals) (s : State) :
  turns w verbose (m + k) l s
  = (l1 <~ turns w verbose m l ;; turns w verbose k l1) s.
Proof.
  revert l s. induction m as [|m IH]; intros l s; simpl; [reflexivity|].
  unfold bind. destruct (turn w verbose l s) as [[l1|e] s1]; [|reflexivity].
  rewrite IH. reflexivity.
Qed.

Lemma logged_key (g : gmap string (list value)) (source summary : string)
    (n : Z) (current : value) (key : string) :
  key ∈ log_keys ->
  exists val,
    (list_to_map (turn_dict source n current summary) : gmap string value) !! key
    = Some val /\
    (key = "turn" -> val = VInt n).
Proof.
  unfold log_keys. rewrite !elem_of_cons, elem_of_nil.
  intros [->|[->|[->|[->|[->|[]]]]]]; eexists; (split; [reflexivity|]);
    first [discriminate | done].
Qed.

(** The log over [n] completed iterations. *)
Lemma turns_log (verbose : bool) (n : nat) (l l' : locals) (s s' : State) :
  turns w verbose n l s = (Ok l', s') ->
  turn_num l' = turn_num l + Z.of_nat n /\
  start_topic s' = start_topic s /\
  (forall key xs, game_log s !! key = Some xs ->
     exists ys, game_log s' !! key = Some (xs ++ ys) /\
                (key ∈ log_keys -> length ys = n)) /\
  (forall xs, game_log s !! "turn" = Some xs ->
     game_log s' !! "turn"
     = Some (xs ++ (VInt <$> seqZ (turn_num l) (Z.of_nat n)))).
Proof.
  revert l s. induction n as [|n IH]; intros l s Hrun.
  - injection Hrun as <- <-. split; [simpl; lia|]. split; [reflexivity|]. split.
    + intros key xs Hxs. exists []. rewrite app_nil_r. done.
    + intros xs Hxs. simpl. by rewrite app_nil_r.
  - simpl in Hrun. apply bind_Ok in Hrun as (l1 & s1 & Hturn & Hrun).
    apply turn_spec in Hturn
      as (Hnum & Hst & _ & source & summary & Hsource & Hlog).
    apply IH in Hrun as (Hnum' & Hst' & Hall & Hturns).
    split; [lia|]. split; [congruence|]. split.
    + intros key xs Hxs. specialize (Hlog key). unfold logged in Hlog.
      destruct (list_to_map _ !! key) as [val|] eqn:Hval.
      * rewrite Hxs in Hlog. simpl in Hlog.
        destruct (Hall _ _ Hlog) as (ys & Hys & Hlen).
        exists (val :: ys). rewrite <- app_assoc in Hys. split; [exact Hys|].
        intros Hkey. simpl. by rewrite Hlen.
      * rewrite Hxs in Hlog.
        destruct (Hall _ _ Hlog) as (ys & Hys & Hlen).
        exists ys. split; [exact Hys|]. intros Hkey.
        destruct (logged_key (game_log s) source summary (turn_num l)
                    (current_topic l) key Hkey) as (val & Hsome & _).
        congruence.
    + intros xs Hxs. specialize (Hlog "turn"). unfold logged in Hlog.
      change (list_to_map _ !! "turn") with (Some (VInt (turn_num l))) in Hlog.
      rewrite Hxs in Hlog. simpl in Hlog.
      rewrite (Hturns _ Hlog), <- app_assoc. f_equal. f_equal.
      rewrite (seqZ_cons (turn_num l) (Z.of_nat (S n))) by lia.
      rewrite Hnum. simpl. do 3 f_equal; lia.
Qed.

End Game.

(** ** The game *)

Section Play.

Variable w : World.

(** C9.  In a freshly constructed bot, after [n] completed iterations of
    [play_game] each of the five lists of the log has [n] entries, the
    list of turn numbers is 1, 2, ..., [n], and the log after any earlier
    iteration is an initial part of it: entries are only added at the
    end. *)
Theorem game_log_after_turns (start target : option string) (s0 s1 s' : State)
    (verbose : bool) (n : nat) (l : locals) :
  __init__ w start target s0 = (Ok tt, s1) ->
  play_game w verbose n s1 = (Ok l, s') ->
  turn_num l = 1 + Z.of_nat n /\
  (forall key, key ∈ log_keys ->
     exists xs, game_log s' !! key = Some xs /\ length xs = n) /\
  game_log s' !! "turn" = Some (VInt <$> seqZ 1 (Z.of_nat n)) /\
  (forall m, (m <= n)%nat ->
     exists lm sm, play_game w verbose m s1 = (Ok lm, sm) /\
       forall key xs, game_log sm !! key = Some xs ->
         exists ys, game_log s' !! key = Some (xs ++ ys)).
Proof.
  intros Hinit Hplay.
  apply init_game_log in Hinit as [Hempty _].
  unfold play_game in Hplay.
  apply bind_Ok in Hplay as (source & s2 & Hsource & Hturns).
  pose proof Hsource as Hattr. apply attr_Ok in Hattr as [-> _].
  pose proof (turns_log w verbose n _ _ _ _ Hturns) as (Hnum & _ & Hall & Hturn).
  split; [exact Hnum|]. split; [|split].
  - intros key Hkey.
    assert (game_log s1 !! key = Some []) as Hnil.
    { rewrite Hempty. revert Hkey. unfold log_keys.
      rewrite !elem_of_cons, elem_of_nil.
      intros [->|[->|[->|[->|[->|[]]]]]]; reflexivity. }
    destruct (Hall _ _ Hnil) as (ys & Hys & Hlen). eauto.
  - rewrite (Hturn []); [reflexivity | rewrite Hempty; reflexivity].
  - intros m Hm. replace n with (m + (n - m))%nat in Hturns by lia.
    rewrite turns_app in Hturns.
    apply bind_Ok in Hturns as (lm & sm & Hfirst & Hrest).
    exists lm, sm. split.
    + unfold play_game. rewrite (bind_run _ _ _ _ _ Hsource). exact Hfirst.
    + intros key xs Hxs.
      pose proof (turns_log w verbose _ _ _ _ _ Hrest) as (_ & _ & Hext & _).
      destruct (Hext _ _ Hxs) as (ys & Hys & _). eauto.
Qed.

(** Every completed iteration puts the start topic at the end of the
    list kept under the key [target_topic]. *)
Lemma turn_logs_start_as_target (verbose : bool) (l l' : locals) (s s' : State) :
  turn w verbose l s = (Ok l', s') ->
  exists source,
    start_topic s = Some source /\
    game_log s' !! "target_topic"
    = (fun xs => xs ++ [VStr source]) <$> game_log s !! "target_topic".
Proof.
  intros Hturn.
  apply turn_spec in Hturn as (_ & _ & _ & source & summary & Hsource & Hlog).
  exists source. split; [exact Hsource|]. rewrite Hlog. reflexivity.
Qed.

(** The topic an iteration moves to is what [take_turn] returned. *)
Lemma turn_next (verbose : bool) (l l' : locals) (s s' : State) :
  turn w verbose l s = (Ok l', s') ->
  exists s1,
    take_turn w (current_topic l) (set_add (current_topic l) (visited l)) s
    = (Ok (current_topic l'), s1).
Proof.
  unfold turn. intros Hrun.
  apply bind_Ok in Hrun as (next & s1 & Htake & Hrun).
  apply bind_Ok in Hrun as (source & s2 & _ & Hrun).
  apply bind_Ok in Hrun as (summary & s3 & _ & Hrun).
  apply bind_Ok in Hrun as ([] & s4 & _ & Hrun).
  apply bind_Ok in Hrun as ([] & s5 & _ & Hrun).
  injection Hrun as <- <-. simpl. eauto.
Qed.

(** With a matcher that answers from the candidate list, as [difflib]
    does, no iteration ever makes the target topic the current topic: the
    short-circuit hands the loop a pair, and the model-driven path picks
    among candidates that do not include the target. *)
Lemma target_never_current (verbose : bool) (n : nat) (l l' : locals)
    (s s' : State) (target : string) :
  (forall proposed pages c,
     get_close_matches w proposed pages !! 0%nat = Some c -> c ∈ pages) ->
  target_topic s = Some target ->
  current_topic l <> VStr target ->
  turns w verbose n l s = (Ok l', s') ->
  current_topic l' <> VStr target.
Proof.
  intros Hmatch. revert l s. induction n as [|n IH]; intros l s Htarget Hcur Hrun.
  - injection Hrun as <- <-. exact Hcur.
  - simpl in Hrun. apply bind_Ok in Hrun as (l1 & s1 & Hturn & Hrun).
    pose proof (turn_spec w _ _ _ _ _ Hturn) as (_ & _ & Htg & _).
    apply turn_next in Hturn as (s2 & Htake).
    apply take_turn_Ok in Htake
      as (summary & links & tg & _ & _ & _ & Htg' & Hshort & Hmodel).
    assert (tg = target) as -> by congruence.
    apply (IH l1 s1); [congruence| |exact Hrun].
    destruct (decide (target ∈ candidates links
                        (set_add (current_topic l) (visited l)))) as [Hin|Hnot].
    + rewrite (Hshort Hin). discriminate.
    + destruct (Hmodel Hnot) as (proposed & c & Hc & ->).
      intros Heq. injection Heq as ->. apply Hnot. eapply Hmatch, Hc.
Qed.

End Play.

Lemma game_log_after_turns_witness :
  fst (play_game xmas false 2 (session "Test" "Paris"))
    = Ok {| turn_num := 3; current_topic := VStr "Exam";
            visited := [VStr "Test"; VStr "Quiz"] |} /\
  game_log (snd (play_game xmas false 2 (session "Test" "Paris"))) !! "turn"
    = Some [VInt 1; VInt 2].
Proof.
  assert (__init__ xmas (Some "Test") (Some "Paris") (boot None)
          = (Ok tt, session "Test" "Paris")) as Hinit
    by (vm_compute; reflexivity).
  assert (play_game xmas false 2 (session "Test" "Paris")
          = (Ok {| turn_num := 3; current_topic := VStr "Exam";
                   visited := [VStr "Test"; VStr "Quiz"] |},
             snd (play_game xmas false 2 (session "Test" "Paris")))) as Hplay
    by (vm_compute; reflexivity).
  split; [vm_compute; reflexivity|].
  destruct (game_log_after_turns xmas _ _ _ _ _ _ _ _ Hinit Hplay)
    as (_ & _ & Hturn & _).
  rewrite Hturn. reflexivity.
Defined.

(** C2 on the code.  The bot for the game from "Test" to "Paris" is
    constructed and plays one turn; the record of that turn has "Test",
    the start topic, in its [target_topic] field, while the target topic
    of the session is "Paris". *)
Theorem target_topic_field_holds_start :
  __init__ xmas (Some "Test") (Some "Paris") (boot None)
    = (Ok tt, session "Test" "Paris") /\
  fst (play_game xmas false 1 (session "Test" "Paris"))
    = Ok {| turn_num := 2; current_topic := VStr "Quiz"; visited := [VStr "Test"] |} /\
  target_topic (snd (play_game xmas false 1 (session "Test" "Paris")))
    = Some "Paris" /\
  game_log (snd (play_game xmas false 1 (session "Test" "Paris"))) !! "target_topic"
    = Some [VStr "Test"].
Proof. vm_compute. repeat split. Qed.

(** C8 on the code.  In the game from "Test" to "Christmas" the first
    turn selects the target.  Silent, the loop goes on: it takes a second
    turn from the pair it was handed, asks the model, and moves to "Quiz".
    Verbose, the first iteration ends in an [AttributeError] when the
    progress block is formatted. *)
Theorem play_game_goes_on_after_target :
  fst (take_turn xmas (VStr "Test") [VStr "Test"] (session "Test" "Christmas"))
    = Ok (VTuple [VStr "Christmas"; VInt 1]) /\
  fst (play_game xmas false 1 (session "Test" "Christmas"))
    = Ok {| turn_num := 2; current_topic := VTuple [VStr "Christmas"; VInt 1];
            visited := [VStr "Test"] |} /\
  fst (play_game xmas false 2 (session "Test" "Christmas"))
    = Ok {| turn_num := 3; current_topic := VStr "Quiz";
            visited := [VStr "Test"; VTuple [VStr "Christmas"; VInt 1]] |} /\
  game_log (snd (play_game xmas false 2 (session "Test" "Christmas")))
    !! "current_topic"
    = Some [VStr "Test"; VTuple [VStr "Christmas"; VInt 1]] /\
  length (llm_calls (snd (play_game xmas false 2 (session "Test" "Christmas"))))
    = 1%nat /\
  fst (play_game xmas true 1 (session "Test" "Christmas"))
    = Raised (AttributeError "'tuple' object has no attribute 'replace'").
Proof. vm_compute. repeat split. Qed.

(** * Further properties of the code *)

(** ** Characters and quotes *)

(** On a string of ASCII characters, [s[:n]] is the first [n] bytes. *)
Lemma str_take_ascii (n : nat) (s : string) :
  (forall c, contains c s = true -> continuation c = false) ->
  str_take n s = substring 0 n s.
Proof.
  revert n. induction s as [|c s IH]; intros n Hascii; [by destruct n|].
  simpl. rewrite (Hascii c) by (simpl; by rewrite bool_decide_eq_true_2).
  destruct n as [|n]; [reflexivity|]. f_equal. apply IH.
  intros d Hd. apply Hascii. simpl. rewrite Hd. apply orb_true_r.
Qed.

(** Five characters of a key typed with accents are ten bytes. *)
Example str_take_characters :
  str_take 5 "ééééé-key" = "ééééé" /\ String.length "ééééé" = 10%nat.
Proof. split; reflexivity. Qed.

(** [str] of the pair a short-circuit returns, for a plain title and for
    a title with an apostrophe. *)
Example py_str_pair :
  py_str (VTuple [VStr "Christmas"; VInt 1]) = "('Christmas', 1)" /\
  py_str (VTuple [VStr "O'Neill"; VInt 1])
  = "(" +:+ String "034" "O'Neill" +:+ String "034" ", 1)".
Proof. split; reflexivity. Qed.

(** ** Splitting and joining *)

Lemma split_nonempty (sep : ascii) (s : string) : split sep s <> [].
Proof.
  destruct (split_head sep s) as [rest ->]. discriminate.
Qed.

Lemma join_cons_char (sep : string) (c : ascii) (h : string) (t : list string) :
  join sep (String c h :: t) = String c (join sep (h :: t)).
Proof. destruct t; reflexivity. Qed.

(** X1.  Joining the fields of [reply.split('=')] with ['='] gives the
    reply back: the split drops nothing but the separators. *)
Theorem join_split (sep : ascii) (s : string) :
  join (String sep EmptyString) (split sep s) = s.
Proof.
  induction s as [|c s IH]; [reflexivity|]. simpl.
  case_bool_decide as Hc.
  - subst c. pose proof (split_nonempty sep s) as Hne.
    destruct (split sep s) as [|h t] eqn:Hsplit; [done|].
    change (join (String sep "") ("" :: h :: t))
      with (String sep (join (String sep "") (h :: t))).
    by rewrite IH.
  - pose proof (split_nonempty sep s) as Hne.
    destruct (split sep s) as [|h t] eqn:Hsplit; [done|].
    rewrite join_cons_char. by rewrite IH.
Qed.

Lemma before_first_clean (sep : ascii) (s : string) :
  contains sep (before_first sep s) = false.
Proof.
  induction s as [|c s IH]; simpl; [reflexivity|].
  case_bool_decide as Hc; simpl; [reflexivity|].
  rewrite IH. by rewrite bool_decide_eq_false_2.
Qed.

(** X2.  The parsing step succeeds exactly on the replies that contain
    ['='], and a proposed topic never contains ['=']. *)
Theorem proposedPage_defined (reply : string) :
  ((exists proposed, proposedPage reply = Ok proposed) <->
   contains "=" reply = true) /\
  (forall proposed, proposedPage reply = Ok proposed ->
     contains "=" proposed = false).
Proof.
  unfold proposedPage, index.
  destruct (contains "=" reply) eqn:Hc.
  - rewrite (split_tail _ _ Hc). simpl.
    destruct (split_head "=" (after_first "=" reply)) as [rest ->]. simpl.
    split; [split; eauto|].
    intros proposed [= <-]. apply before_first_clean.
  - rewrite (split_without _ _ Hc). simpl.
    split; [split; [intros [? ?]|]; discriminate | discriminate].
Qed.

(** ** Order and reach of the candidate list *)

Lemma filter_sublist {A : Type} (f : A -> bool) (l : list A) :
  List.filter f l `sublist_of` l.
Proof.
  induction l as [|x l IH]; simpl; [constructor|].
  destruct (f x); by constructor.
Qed.

Lemma filter_lookup_le {A : Type} (f : A -> bool) (l : list A) (i : nat) (x : A) :
  l !! i = Some x -> f x = true ->
  exists j, List.filter f l !! j = Some x /\ (j <= i)%nat.
Proof.
  revert i. induction l as [|y l IH]; intros i Hi Hx; [done|].
  destruct i as [|i]; simpl in *.
  - injection Hi as ->. rewrite Hx. exists O. split; [reflexivity | lia].
  - destruct (IH _ Hi Hx) as (j & Hj & Hle). destruct (f y).
    + exists (S j). split; [exact Hj | lia].
    + exists j. split; [exact Hj | lia].
Qed.

(** X3.  The candidates are links of the page in the order the service
    lists them, and every unvisited link among the first 25 links of the
    page is a candidate. *)
Theorem candidates_order_reach (links : list string) (visited : list value) :
  candidates links visited `sublist_of` links /\
  forall i page, links !! i = Some page -> (i < 25)%nat ->
    VStr page ∉ visited -> page ∈ candidates links visited.
Proof.
  split.
  - unfold candidates, unvisited.
    etrans; [apply sublist_take | apply filter_sublist].
  - intros i page Hi Hlt Hfresh. unfold candidates, unvisited.
    destruct (filter_lookup_le
                (fun page => negb (py_in (VStr page) visited)) links i page Hi)
      as (j & Hj & Hle).
    { destruct (py_in (VStr page) visited) eqn:Hin; [|reflexivity].
      by apply py_in_elem in Hin. }
    apply elem_of_take. exists j. split; [exact Hj | lia].
Qed.

Lemma candidates_order_reach_witness :
  "Christmas" ∈ candidates ["Test"; "Exam"; "Christmas"] [VStr "Test"].
Proof.
  apply (proj2 (candidates_order_reach ["Test"; "Exam"; "Christmas"] [VStr "Test"])
           2%nat "Christmas"); [reflexivity | lia |].
  intros Hin. apply py_in_elem in Hin. vm_compute in Hin. discriminate.
Defined.

Lemma proposedPage_defined_witness :
  contains "=" "Next topic=Quiz=" = true /\
  contains "=" "Quiz" = false.
Proof.
  split; [reflexivity|].
  exact (proj2 (proposedPage_defined "Next topic=Quiz=") "Quiz" eq_refl).
Defined.

(** ** Writing to the log *)

Lemma log_append_dom (key : string) (val : value) (s : State) :
  dom (game_log (snd (log_append key val s))) = dom (game_log s).
Proof.
  unfold log_append. destruct (game_log s !! key) as [xs|] eqn:Hxs; [|reflexivity].
  simpl. apply dom_insert_lookup_L. eauto.
Qed.

Lemma log_turn_dom (dict : list (string * value)) (s : State) :
  dom (game_log (snd (log_turn dict s))) = dom (game_log s).
Proof.
  revert s. induction dict as [|[k v] rest IH]; intros s; [reflexivity|].
  simpl. unfold bind.
  pose proof (log_append_dom k v s) as Hk.
  destruct (log_append k v s) as [[[]|e] s1]; simpl in *.
  - rewrite IH. exact Hk.
  - exact Hk.
Qed.

(** X4.  [log_turn] returns normally exactly when every key of the
    dictionary it is given is a key of the game log. *)
Theorem log_turn_succeeds_iff (dict : list (string * value)) (s : State) :
  fst (log_turn dict s) = Ok tt <->
  forall key, key ∈ dict.*1 -> key ∈ dom (game_log s).
Proof.
  revert s. induction dict as [|[k v] rest IH]; intros s.
  - simpl. split; [|reflexivity]. intros _ key Hkey. by apply elem_of_nil in Hkey.
  - simpl. unfold bind.
    pose proof (log_append_dom k v s) as Hdom.
    unfold log_append in *.
    destruct (game_log s !! k) as [xs|] eqn:Hxs; simpl in *.
    + rewrite IH. simpl. rewrite Hdom. split.
      * intros Hrest key Hkey. apply elem_of_cons in Hkey as [->|Hkey].
        -- apply elem_of_dom. eauto.
        -- by apply Hrest.
      * intros Hall key Hkey. apply Hall. by apply list_elem_of_further.
    + split; [discriminate|]. intros Hall.
      assert (k ∈ dom (game_log s)) as Hk by (apply Hall; apply list_elem_of_here).
      apply elem_of_dom in Hk as [? Hk]. congruence.
Qed.

Lemma log_turn_succeeds_iff_witness :
  fst (log_turn [("turn", VInt 1)] (session "Test" "Paris")) = Ok tt.
Proof.
  apply (log_turn_succeeds_iff [("turn", VInt 1)] (session "Test" "Paris")).
  intros key Hkey. apply list_elem_of_singleton in Hkey as ->.
  apply elem_of_dom. exists []. reflexivity.
Defined.

(** X5.  Whatever its outcome, [log_turn] leaves the set of keys of the
    game log as it was; when it raises, the exception is the [KeyError] of
    a key of the dictionary that the log does not have, and the entries
    listed before that key have already been appended. *)
Theorem log_turn_failure (dict : list (string * value)) (s : State) :
  dom (game_log (snd (log_turn dict s))) = dom (game_log s) /\
  forall e, fst (log_turn dict s) = Raised e ->
    exists done key val rest,
      dict = done ++ (key, val) :: rest /\
      e = KeyError key /\
      game_log s !! key = None /\
      log_turn done s = (Ok tt, snd (log_turn dict s)).
Proof.
  split; [apply log_turn_dom|].
  revert s. induction dict as [|[k v] rest IH]; intros s e Hraise; [discriminate|].
  simpl in *. unfold bind in *.
  destruct (log_append k v s) as [[[]|e1] s1] eqn:Hk.
  - destruct (IH s1 e Hraise) as (done & key & val & rest' & -> & -> & Hnone & Hdone).
    exists ((k, v) :: done), key, val, rest'. repeat split.
    + assert (dom (game_log s1) = dom (game_log s)) as Hdom.
      { pose proof (log_append_dom k v s) as H. by rewrite Hk in H. }
      apply not_elem_of_dom. rewrite <- Hdom. by apply not_elem_of_dom.
    + simpl. unfold bind. rewrite Hk. exact Hdone.
  - simpl in Hraise. injection Hraise as ->.
    unfold log_append in Hk.
    destruct (game_log s !! k) eqn:Hnone; [discriminate|].
    injection Hk as <- <-.
    exists [], k, v, rest. repeat split. exact Hnone.
Qed.

Lemma log_turn_failure_witness :
  fst (log_turn [("turn", VInt 1); ("time", VInt 3)] (session "Test" "Paris"))
    = Raised (KeyError "time") /\
  game_log (snd (log_turn [("turn", VInt 1); ("time", VInt 3)]
                   (session "Test" "Paris"))) !! "turn" = Some [VInt 1].
Proof.
  assert (fst (log_turn [("turn", VInt 1); ("time", VInt 3)] (session "Test" "Paris"))
          = Raised (KeyError "time")) as Hraise by (vm_compute; reflexivity).
  split; [exact Hraise|].
  destruct (proj2 (log_turn_failure [("turn", VInt 1); ("time", VInt 3)]
                     (session "Test" "Paris")) _ Hraise)
    as (done & key & val & rest & Hdict & Hkey & Hnone & Hdone).
  vm_compute. reflexivity.
Defined.

(** ** Construction: the key, the services, the random pages *)

Section MoreConstruction.

Variable w : World.

(** X6.  Without a usable key in the environment, a typed key that does
    not start with [nvapi-] makes construction fail on the spot: the
    assertion error quotes the first five characters of what was typed,
    and nothing has been set up, looked up or drawn. *)
Theorem init_rejects_bad_key (start target : option string) (s0 : State) :
  startswith "nvapi-" (default "" (environ s0)) = false ->
  startswith "nvapi-" (getpass w "Enter your NVIDIA API key: ") = false ->
  __init__ w start target s0
  = (Raised (AssertionError
       (str_take 5 (getpass w "Enter your NVIDIA API key: ")
        +:+ "... is not a valid key")), s0).
Proof.
  intros Henv Htyped.
  unfold __init__, resolve_topics, bind, credentials, assert, raise.
  rewrite Henv, Htyped. reflexivity.
Qed.

Lemma get_topics_frame (start target : option string) (s : State) :
  let s' := snd (get_topics w start target s) in
  environ s' = environ s /\ llm_calls s' = llm_calls s /\
  stdout s' = stdout s /\ game_log s' = game_log s /\
  printouts s' = printouts s /\ current_summary s' = current_summary s.
Proof.
  unfold get_topics, bind, lift, modify, random_page. simpl.
  repeat (case_match; simpl in *; simplify_eq; try done).
Qed.

Lemma credentials_frame (s : State) :
  let s' := snd (credentials w s) in
  llm_calls s' = llm_calls s /\ stdout s' = stdout s /\
  current_summary s' = current_summary s /\ random_draws s' = random_draws s.
Proof.
  unfold credentials, bind, assert, raise, ret, modify. simpl.
  repeat (case_match; simpl in *; simplify_eq; try done).
Qed.

Lemma credentials_Ok (s s1 : State) :
  credentials w s = (Ok tt, s1) ->
  exists key, environ s1 = Some key /\ startswith "nvapi-" key = true /\
    (startswith "nvapi-" (default "" (environ s)) = true -> s1 = s) /\
    (startswith "nvapi-" (default "" (environ s)) = false ->
     key = getpass w "Enter your NVIDIA API key: ").
Proof.
  unfold credentials.
  destruct (startswith "nvapi-" (default "" (environ s))) eqn:Henv; cbn [negb].
  - unfold ret. intros [= <-].
    destruct (environ s) as [key|] eqn:Hkey; [|discriminate].
    exists key. repeat split; [exact Henv | discriminate].
  - unfold bind, assert.
    destruct (startswith "nvapi-" (getpass w "Enter your NVIDIA API key: "))
      eqn:Htyped; [|unfold raise; discriminate].
    unfold ret, modify. intros [= <-]. eexists.
    repeat split; [exact Htyped | discriminate].
Qed.

(** X7.  A constructed bot runs in a process whose environment holds a key
    that starts with [nvapi-]: the one that was there, in which case the
    user is not asked, or else the one the user typed. *)
Theorem init_key (start target : option string) (s0 s1 : State) :
  __init__ w start target s0 = (Ok tt, s1) ->
  exists key, environ s1 = Some key /\ startswith "nvapi-" key = true /\
    (startswith "nvapi-" (default "" (environ s0)) = true ->
     environ s1 = environ s0) /\
    (startswith "nvapi-" (default "" (environ s0)) = false ->
     key = getpass w "Enter your NVIDIA API key: ").
Proof.
  intros Hinit. unfold __init__ in Hinit.
  apply bind_Ok in Hinit as ([] & s2 & Hres & Hrest).
  unfold resolve_topics in Hres.
  apply bind_Ok in Hres as ([] & sa & Hcred & Hres).
  apply bind_Ok in Hres as ([] & sb & Hb & Hres).
  apply bind_Ok in Hres as ([] & sc & Hc & Hres).
  unfold modify in Hb, Hc. simplify_eq.
  pose proof (get_topics_frame start target
                (set_printouts [] (set_game_log empty_log sa))) as (Henv & _).
  rewrite Hres in Henv. simpl in Henv.
  apply bind_Ok in Hrest as (a & s3 & Ha & Hrest).
  apply bind_Ok in Hrest as (b & s4 & Hb & Hrest).
  apply attr_Ok in Ha as [-> _], Hb as [-> _].
  unfold assert, ret, raise in Hrest. destruct (negb _); [|discriminate].
  injection Hrest as <-.
  destruct (credentials_Ok _ _ Hcred) as (key & Hkey & Hvalid & Hsame & Htyped).
  exists key. rewrite Henv. repeat split; try assumption.
  intros Hold. by rewrite (Hsame Hold).
Qed.

(** X8.  Construction never talks to the model and prints nothing, whatever
    its outcome; a constructed bot has the five empty lists as its log and
    no progress block. *)
Theorem init_quiet (start target : option string) (s0 : State) :
  llm_calls (snd (__init__ w start target s0)) = llm_calls s0 /\
  stdout (snd (__init__ w start target s0)) = stdout s0 /\
  forall s1, __init__ w start target s0 = (Ok tt, s1) ->
    game_log s1 = empty_log /\ printouts s1 = [].
Proof.
  assert (forall s, let s' := snd (resolve_topics w start target s) in
            llm_calls s' = llm_calls s /\ stdout s' = stdout s /\
            (fst (resolve_topics w start target s) = Ok tt -> printouts s' = []))
    as Hres.
  { intros s. unfold resolve_topics, bind, modify.
    pose proof (credentials_frame s) as (Hl & Hs & _).
    destruct (credentials w s) as [[[]|e] sa]; simpl in *; [|done].
    pose proof (get_topics_frame start target
                  (set_printouts [] (set_game_log empty_log sa)))
      as (_ & Hl' & Hs' & _ & Hp & _).
    destruct (get_topics w start target _) as [[[]|e] sb]; simpl in *;
      repeat split; congruence. }
  assert (forall s, snd (__init__ w start target s)
                    = snd (resolve_topics w start target s)) as Hsnd.
  { intros s. unfold __init__, bind, attr, assert, ret, raise.
    destruct (resolve_topics w start target s) as [[[]|e] s2]; simpl; [|done].
    repeat (case_match; simpl in *; simplify_eq; try done). }
  rewrite Hsnd. destruct (Hres s0) as (Hl & Hs & Hp).
  split; [exact Hl|]. split; [exact Hs|].
  intros s1 Hinit. split; [eapply init_game_log, Hinit|].
  pose proof (Hsnd s0) as Hs1. rewrite Hinit in Hs1. simpl in Hs1. subst s1.
  apply Hp. unfold __init__ in Hinit.
  apply bind_Ok in Hinit as ([] & s2 & Hr & _). by rewrite Hr.
Qed.

(** X9.  [get_topics] asks for one random page per omitted name ([None] or
    the empty string), the start first; a given name is looked up and
    costs no draw. *)
Theorem get_topics_resolution (start target : option string) (s s1 : State) :
  get_topics w start target s = (Ok tt, s1) ->
  random_draws s1 = (random_draws s + omitted start + omitted target)%nat /\
  exists a b,
    start_topic s1 = Some a /\ target_topic s1 = Some b /\
    (if truthy start then search_wiki w (default "" start)
     else get_random_wiki_page w (random_draws s)) = Ok a /\
    (if truthy target then search_wiki w (default "" target)
     else get_random_wiki_page w (random_draws s + omitted start)) = Ok b.
Proof.
  unfold get_topics, bind, lift, modify, random_page, omitted.
  destruct (truthy start), (truthy target); simpl;
    repeat (case_match; simpl in *; simplify_eq; try done); intros;
    simplify_eq; simpl; rewrite ?Nat.add_0_r;
    (split; [lia|]); eexists _, _; repeat split; eauto.
  all: by rewrite Nat.add_1_r.
Qed.

(** X10.  With both names omitted, construction fails with the assertion
    error when the service hands out the same random page twice in a
    row. *)
Theorem init_same_random_page (s0 : State) (page : string) :
  startswith "nvapi-" (default "" (environ s0)) = true ->
  get_random_wiki_page w (random_draws s0) = Ok page ->
  get_random_wiki_page w (S (random_draws s0)) = Ok page ->
  fst (__init__ w None None s0)
  = Raised (AssertionError "Please enter different start and target topics.").
Proof.
  intros Henv Hfirst Hsecond.
  unfold __init__, resolve_topics, get_topics, bind, credentials, modify,
    random_page, attr, assert, raise, ret.
  rewrite Henv. simpl. rewrite Hfirst. simpl. rewrite Hsecond. simpl.
  by rewrite bool_decide_eq_true_2.
Qed.

End MoreConstruction.

(** ** More on one turn *)

Section MoreTurn.

Variable w : World.

Lemma candidates_fresh (links : list string) (visited : list value) (page : string) :
  page ∈ candidates links visited -> VStr page ∉ visited.
Proof.
  unfold candidates, unvisited. intros Hpage Hin.
  apply subseteq_take in Hpage.
  apply list_elem_of_In, filter_In in Hpage as [_ Hfresh].
  apply py_in_elem in Hin. rewrite Hin in Hfresh. discriminate.
Qed.

(** A model-driven turn that returns, in full. *)
Lemma take_turn_str_inv (cur : value) (visited : list value) (s s' : State)
    (c : string) :
  take_turn w cur visited s = (Ok (VStr c), s') ->
  exists summary links target source reply proposed,
    get_page_summary w cur = Ok summary /\
    validate_pages w cur = Ok links /\
    target_topic s = Some target /\
    start_topic s = Some source /\
    (target ∉ candidates links visited) /\
    let prompt := template source target (py_str cur) (join "
" (candidates links visited)) in
    llm_invoke w (length (llm_calls s)) prompt = Ok reply /\
    proposedPage (content reply) = Ok proposed /\
    get_close_matches w proposed (candidates links visited) !! 0%nat = Some c /\
    llm_calls s' = llm_calls s ++ [prompt] /\
    stdout s' = stdout s ++ [prompt; "Response"; response_repr reply;
                             "Parsed Response"; proposed;
                             "Most similar page"; c].
Proof.
  intros Hrun.
  destruct (get_page_summary w cur) as [summary|e] eqn:Hsum;
    [|unfold take_turn, bind, lift in Hrun; rewrite Hsum in Hrun; discriminate].
  destruct (validate_pages w cur) as [links|e] eqn:Hlinks;
    [|unfold take_turn, bind, lift, modify in Hrun;
      rewrite Hsum, Hlinks in Hrun; discriminate].
  destruct (target_topic s) as [target|] eqn:Htarget;
    [|unfold take_turn, bind, lift, modify, attr in Hrun;
      rewrite Hsum, Hlinks in Hrun; simpl in Hrun; rewrite Htarget in Hrun;
      discriminate].
  destruct (decide (target ∈ candidates links visited)) as [Hin|Hnot].
  { rewrite (take_turn_pair w cur visited s summary links target
               Hsum Hlinks Htarget Hin) in Hrun. discriminate. }
  destruct (start_topic s) as [source|] eqn:Hsource.
  2:{ unfold take_turn, bind, lift, modify, attr in Hrun.
      rewrite Hsum, Hlinks in Hrun. simpl in Hrun. rewrite Htarget in Hrun.
      destruct (py_in _ _) eqn:Hpy; [by apply py_in_strings in Hpy|].
      simpl in Hrun. rewrite Hsource in Hrun. discriminate. }
  pose proof (take_turn_model_path w cur visited s summary links target source
                Hsum Hlinks Htarget Hsource Hnot) as Heq.
  simpl in Heq. rewrite Heq in Hrun. clear Heq.
  destruct (llm_invoke w _ _) as [reply|e] eqn:Hreply; [|discriminate].
  unfold bind, print, modify, lift, ret in Hrun. simpl in Hrun.
  destruct (proposedPage (content reply)) as [proposed|e] eqn:Hprop;
    [|discriminate].
  simpl in Hrun. unfold index in Hrun.
  destruct (get_close_matches w proposed (candidates links visited) !! 0%nat)
    as [c'|] eqn:Hc; [|discriminate].
  simpl in Hrun. injection Hrun as -> <-.
  exists summary, links, target, source, reply, proposed. simpl.
  repeat split; try assumption.
  rewrite <- !app_assoc. reflexivity.
Qed.

Lemma take_turn_calls (cur : value) (visited : list value) (s : State) :
  llm_calls (snd (take_turn w cur visited s)) = llm_calls s \/
  exists prompt, llm_calls (snd (take_turn w cur visited s)) = llm_calls s ++ [prompt].
Proof.
  unfold take_turn, bind, lift, modify, attr, print, invoke, ret. simpl.
  repeat (case_match; simpl in *; simplify_eq; eauto).
Qed.

(** X11.  A turn sends at most one prompt to the model, whatever its
    outcome; it has sent exactly one when it returns an article title, and
    none when it returns a tuple. *)
Theorem take_turn_one_call (cur : value) (visited : list value) (s : State) :
  (llm_calls (snd (take_turn w cur visited s)) = llm_calls s \/
   exists prompt,
     llm_calls (snd (take_turn w cur visited s)) = llm_calls s ++ [prompt]) /\
  (forall c, fst (take_turn w cur visited s) = Ok (VStr c) ->
     exists prompt,
       llm_calls (snd (take_turn w cur visited s)) = llm_calls s ++ [prompt]) /\
  (forall items, fst (take_turn w cur visited s) = Ok (VTuple items) ->
     llm_calls (snd (take_turn w cur visited s)) = llm_calls s).
Proof.
  split; [apply take_turn_calls|]. split.
  - intros c Hc.
    destruct (take_turn w cur visited s) as [r s'] eqn:Hrun. simpl in Hc. subst r.
    apply take_turn_str_inv in Hrun
      as (? & ? & ? & ? & ? & ? & _ & _ & _ & _ & _ & _ & _ & _ & Hcalls & _).
    simpl. eauto.
  - intros items Hitems.
    destruct (take_turn w cur visited s) as [r s'] eqn:Hrun. simpl in Hitems.
    subst r. simpl.
    destruct (take_turn_Ok w _ _ _ _ _ Hrun)
      as (summary & links & target & Hsum & _ & Hlinks & Htarget & _ & Hmodel).
    destruct (decide (target ∈ candidates links visited)) as [Hin|Hnot].
    + rewrite (take_turn_pair w cur visited s summary links target
                 Hsum Hlinks Htarget Hin) in Hrun.
      injection Hrun as _ <-. reflexivity.
    + destruct (Hmodel Hnot) as (? & ? & _ & ?). discriminate.
Qed.

(** X12.  A failed page fetch ends the turn with the service's error and
    an untouched state; once the summary is fetched it is in
    [self.current_summary], whatever happens later in the turn. *)
Theorem take_turn_summary (cur : value) (visited : list value) (s : State) :
  (forall e, get_page_summary w cur = Raised e ->
     take_turn w cur visited s = (Raised e, s)) /\
  (forall summary, get_page_summary w cur = Ok summary ->
     current_summary (snd (take_turn w cur visited s)) = Some summary).
Proof.
  split.
  - intros e He. unfold take_turn, bind, lift. rewrite He. reflexivity.
  - intros summary Hsum.
    unfold take_turn, bind, lift, modify, attr, print, invoke, ret.
    rewrite Hsum. simpl.
    repeat (case_match; simpl in *; simplify_eq; try done).
Qed.

(** X13.  With no candidate left and the target not in reach, a turn cannot
    return: the model is still asked, with an empty list of choices, and
    whatever it replies the turn ends in [IndexError]. *)
Theorem take_turn_nothing_to_choose (cur : value) (visited : list value)
    (s : State) (summary : string) (links : list string) (target source : string) :
  get_page_summary w cur = Ok summary ->
  validate_pages w cur = Ok links ->
  target_topic s = Some target ->
  start_topic s = Some source ->
  candidates links visited = [] ->
  (forall proposed, get_close_matches w proposed [] = []) ->
  llm_calls (snd (take_turn w cur visited s))
    = llm_calls s ++ [template source target (py_str cur) ""] /\
  (forall v, fst (take_turn w cur visited s) <> Ok v) /\
  (forall reply,
     llm_invoke w (length (llm_calls s)) (template source target (py_str cur) "")
       = Ok reply ->
     fst (take_turn w cur visited s) = Raised IndexError).
Proof.
  intros Hsum Hlinks Htarget Hsource Hempty Hmatch.
  assert (target ∉ candidates links visited) as Hnot
    by (rewrite Hempty; apply not_elem_of_nil).
  pose proof (take_turn_model_path w cur visited s summary links target source
                Hsum Hlinks Htarget Hsource Hnot) as Heq.
  simpl in Heq. rewrite Hempty in Heq. simpl in Heq. rewrite Heq. clear Heq.
  destruct (llm_invoke w _ _) as [reply|e] eqn:Hreply.
  - unfold bind, print, modify, lift, ret. simpl.
    destruct (proposedPage (content reply)) as [proposed|e] eqn:Hprop; simpl.
    + rewrite Hmatch. simpl.
      split; [reflexivity|]. split; [discriminate | reflexivity].
    + assert (e = IndexError) as ->.
      { unfold proposedPage, index in Hprop.
        destruct (split "=" (content reply) !! 1%nat); congruence. }
      split; [reflexivity|]. split; [discriminate | reflexivity].
  - simpl. split; [reflexivity|]. split; discriminate.
Qed.

(** X14.  With a matcher that answers from the list it is given, the title
    returned by a model-driven turn is one of the candidates, so it is a
    link of the page that was not in the visited collection and is not the
    target. *)
Theorem take_turn_choice (cur : value) (visited : list value) (s s' : State)
    (c : string) :
  answers_from_list w ->
  take_turn w cur visited s = (Ok (VStr c), s') ->
  exists links,
    validate_pages w cur = Ok links /\
    c ∈ links /\
    c ∈ candidates links visited /\
    (VStr c ∉ visited) /\
    target_topic s <> Some c.
Proof.
  intros Hmatch Hrun.
  apply take_turn_str_inv in Hrun
    as (summary & links & target & source & reply & proposed & _ & Hlinks &
        Htarget & _ & Hnot & _ & _ & Hc & _).
  apply Hmatch in Hc. exists links. repeat split; try assumption.
  - eapply elem_of_sublist; [exact Hc|].
    unfold candidates, unvisited.
    etrans; [apply sublist_take | apply filter_sublist].
  - by apply candidates_fresh in Hc.
  - rewrite Htarget. intros [= ->]. contradiction.
Qed.

(** X15.  A model-driven turn that returns has written seven lines to the
    console, also when the game is silent: the prompt, the reply, the
    proposed topic and the title chosen, under their three headings. *)
Theorem take_turn_prints (cur : value) (visited : list value) (s s' : State)
    (c : string) :
  take_turn w cur visited s = (Ok (VStr c), s') ->
  exists prompt reply proposed,
    llm_invoke w (length (llm_calls s)) prompt = Ok reply /\
    proposedPage (content reply) = Ok proposed /\
    stdout s' = stdout s ++ [prompt; "Response"; response_repr reply;
                             "Parsed Response"; proposed;
                             "Most similar page"; c].
Proof.
  intros Hrun.
  apply take_turn_str_inv in Hrun
    as (summary & links & target & source & reply & proposed & _ & _ & _ & _ &
        _ & Hreply & Hprop & _ & _ & Hout).
  eauto 10.
Qed.

End MoreTurn.

(** ** More on the loop *)

Lemma set_add_elem (x y : value) (xs : list value) :
  y ∈ set_add x xs <-> y = x \/ y ∈ xs.
Proof.
  unfold set_add. destruct (py_in x xs) eqn:Hin.
  - apply py_in_elem in Hin. split; [auto|]. intros [->|H]; assumption.
  - rewrite elem_of_app, list_elem_of_singleton. tauto.
Qed.

Lemma set_add_NoDup (x : value) (xs : list value) :
  NoDup xs -> NoDup (set_add x xs).
Proof.
  intros Hxs. unfold set_add. destruct (py_in x xs) eqn:Hin; [exact Hxs|].
  apply NoDup_app. split; [exact Hxs|]. split; [|apply NoDup_singleton].
  intros y Hy Hyx. apply list_elem_of_singleton in Hyx as ->.
  apply py_in_elem in Hy. congruence.
Qed.

Lemma set_add_length (x : value) (xs : list value) :
  (length (set_add x xs) <= S (length xs))%nat.
Proof.
  unfold set_add. destruct (py_in x xs); [lia|].
  rewrite length_app. simpl. lia.
Qed.

Lemma py_replace_Ok (v : value) (x : string) :
  py_replace v = Ok x -> exists c, v = VStr c /\ x = replace "_" " " c.
Proof. destruct v; simpl; intros H; simplify_eq. eauto. Qed.

Lemma log_turn_total (dict : list (string * value)) (s : State) :
  (forall key, key ∈ dict.*1 -> key ∈ dom (game_log s)) ->
  exists s', log_turn dict s = (Ok tt, s').
Proof.
  revert s. induction dict as [|[k v] rest IH]; intros s Hall; [by eexists|].
  simpl. unfold bind.
  pose proof (log_append_dom k v s) as Hdom. unfold log_append in *.
  assert (k ∈ dom (game_log s)) as Hk by (apply Hall; apply list_elem_of_here).
  apply elem_of_dom in Hk as [xs Hk]. rewrite Hk in *. simpl in *.
  apply IH. intros key Hkey. simpl. rewrite Hdom.
  apply Hall. by apply list_elem_of_further.
Qed.

Lemma exact_match_answers (proposal : string) (pages : list string) (c : string) :
  exact_match proposal pages !! 0%nat = Some c -> c ∈ pages.
Proof.
  unfold exact_match. intros Hc. apply list_elem_of_lookup_2 in Hc.
  apply subseteq_take in Hc. apply list_elem_of_In, filter_In in Hc as [Hc _].
  by apply list_elem_of_In.
Qed.

Section MoreGame.

Variable w : World.

(** A completed iteration, with its console side. *)
Lemma turn_Ok_inv (verbose : bool) (l l' : locals) (s s' : State) :
  turn w verbose l s = (Ok l', s') ->
  exists s1,
    take_turn w (current_topic l) (set_add (current_topic l) (visited l)) s
    = (Ok (current_topic l'), s1) /\
    visited l' = set_add (current_topic l) (visited l) /\
    (verbose = false -> printouts s' = printouts s /\ stdout s' = stdout s1) /\
    (verbose = true ->
     exists source target c c',
       start_topic s = Some source /\ target_topic s = Some target /\
       current_topic l = VStr c /\ current_topic l' = VStr c' /\
       printouts s'
       = printouts s ++ [progress_block (turn_num l) source c c' target] /\
       stdout s' = stdout s1 ++ progress_block (turn_num l) source c c' target).
Proof.
  unfold turn. intros Hrun.
  apply bind_Ok in Hrun as (next & s1 & Htake & Hrun).
  apply bind_Ok in Hrun as (source & s2 & Hsource & Hrun).
  apply bind_Ok in Hrun as (summary & s3 & Hsummary & Hrun).
  apply bind_Ok in Hrun as ([] & s4 & Hlog & Hrun).
  apply bind_Ok in Hrun as ([] & s5 & Hreport & Hrun).
  injection Hrun as <- <-. simpl.
  apply attr_Ok in Hsource as [-> Hsource], Hsummary as [-> Hsummary].
  destruct (take_turn_frame w (current_topic l)
              (set_add (current_topic l) (visited l)) s)
    as (_ & Hst & Htg & Hpr & _).
  rewrite Htake in Hst, Htg, Hpr. simpl in Hst, Htg, Hpr.
  apply log_turn_spec in Hlog as [Hs4 _];
    [|rewrite turn_dict_keys; apply log_keys_NoDup].
  exists s1. split; [exact Htake|]. split; [reflexivity|]. split.
  - intros ->. injection Hreport as <-. rewrite Hs4. simpl. by rewrite Hpr.
  - intros ->. unfold report in Hreport.
    apply bind_Ok in Hreport as (source' & sa & Ha & Hreport).
    apply bind_Ok in Hreport as (current & sb & Hb & Hreport).
    apply bind_Ok in Hreport as (next' & sc & Hc & Hreport).
    apply bind_Ok in Hreport as (target & sd & Hd & Hreport).
    apply bind_Ok in Hreport as ([] & se & He & Hreport).
    apply attr_Ok in Ha as [-> Ha], Hd as [Heq Hd].
    unfold lift in Hb, Hc. injection Hb as Hb <-. injection Hc as Hc <-.
    subst sd. unfold modify in He, Hreport. injection He as <-.
    injection Hreport as <-.
    apply py_replace_Ok in Hb as (c & Hcur & ->), Hc as (c' & -> & ->).
    rewrite Hs4 in Ha, Hd. simpl in Ha, Hd.
    assert (printouts s4 = printouts s) as Hp4 by (rewrite Hs4; exact Hpr).
    assert (stdout s4 = stdout s1) as Ho4 by (rewrite Hs4; reflexivity).
    exists source', target, c, c'. rewrite Hcur.
    repeat split; try congruence.
    + cbn [printouts set_stdout set_printouts]. rewrite Hp4. reflexivity.
    + cbn [stdout set_stdout set_printouts]. rewrite Ho4. reflexivity.
Qed.

(** X16.  In a verbose game, a turn that finds the target among the
    candidates always ends in [AttributeError]: the record of the turn is
    in the log, no progress block has been stored, and the loop is over. *)
Theorem verbose_turn_short_circuit (l : locals) (s : State) (c summary : string)
    (links : list string) (target source : string) :
  current_topic l = VStr c ->
  get_page_summary w (VStr c) = Ok summary ->
  validate_pages w (VStr c) = Ok links ->
  target_topic s = Some target ->
  start_topic s = Some source ->
  target ∈ candidates links (set_add (VStr c) (visited l)) ->
  (forall key, key ∈ log_keys -> key ∈ dom (game_log s)) ->
  fst (turn w true l s)
    = Raised (AttributeError "'tuple' object has no attribute 'replace'") /\
  game_log (snd (turn w true l s)) !! "turn"
    = (fun xs => xs ++ [VInt (turn_num l)]) <$> game_log s !! "turn" /\
  printouts (snd (turn w true l s)) = printouts s.
Proof.
  intros Hcur Hsum Hlinks Htarget Hsource Hin Hkeys.
  pose proof (take_turn_pair w (VStr c) (set_add (VStr c) (visited l)) s
                summary links target Hsum Hlinks Htarget Hin) as Htake.
  set (s1 := set_current_summary (Some summary) s) in *.
  destruct (log_turn_total (turn_dict source (turn_num l) (VStr c) summary) s1)
    as [s4 Hlog].
  { intros key Hkey. rewrite turn_dict_keys in Hkey. by apply Hkeys. }
  pose proof Hlog as Hspec.
  apply log_turn_spec in Hspec as [Hs4 Hlogged];
    [|rewrite turn_dict_keys; apply log_keys_NoDup].
  assert (turn w true l s
          = (Raised (AttributeError "'tuple' object has no attribute 'replace'"),
             s4)) as Hturn.
  { unfold turn. rewrite Hcur. rewrite (bind_run _ _ _ _ _ Htake).
    unfold bind at 1. unfold attr at 1. simpl. rewrite Hsource.
    unfold bind at 1. unfold attr at 1. simpl.
    rewrite (bind_run _ _ _ _ _ Hlog).
    unfold bind at 1. unfold report.
    unfold bind at 1. unfold attr at 1. rewrite Hs4. simpl. rewrite Hsource.
    unfold bind at 1. unfold lift at 1. rewrite Hcur. simpl.
    reflexivity. }
  rewrite Hturn. simpl. split; [reflexivity|]. split.
  - rewrite Hlogged. reflexivity.
  - rewrite Hs4. reflexivity.
Qed.

(** X17.  A verbose turn that completes went from one article title to
    another, and has stored and printed one progress block of six lines
    for it, with the underscores of the four topics turned into spaces. *)
Theorem verbose_turn_block (l l' : locals) (s s' : State) :
  turn w true l s = (Ok l', s') ->
  exists source target c c' lines,
    start_topic s = Some source /\ target_topic s = Some target /\
    current_topic l = VStr c /\ current_topic l' = VStr c' /\
    printouts s'
    = printouts s ++ [progress_block (turn_num l) source c c' target] /\
    stdout s'
    = stdout s ++ lines ++ progress_block (turn_num l) source c c' target.
Proof.
  intros Hturn.
  destruct (turn_Ok_inv true l l' s s' Hturn) as (s1 & Htake & _ & _ & Hv).
  destruct (Hv eq_refl) as (source & target & c & c' & Hs & Ht & Hc & Hc' & Hp & Ho).
  rewrite Hc' in Htake.
  apply take_turn_str_inv in Htake
    as (? & ? & ? & ? & ? & ? & _ & _ & _ & _ & _ & _ & _ & _ & _ & Hout).
  exists source, target, c, c'. eexists.
  repeat split; try eassumption.
  rewrite Ho, Hout, <- app_assoc. reflexivity.
Qed.

Lemma turns_printouts_count (verbose : bool) (n : nat) (l l' : locals)
    (s s' : State) :
  turns w verbose n l s = (Ok l', s') ->
  length (printouts s')
  = (length (printouts s) + (if verbose then n else O))%nat /\
  (verbose = false -> printouts s' = printouts s).
Proof.
  revert l s. induction n as [|n IH]; intros l s Hrun.
  - injection Hrun as <- <-. split; [destruct verbose; lia | done].
  - simpl in Hrun. apply bind_Ok in Hrun as (l1 & s1 & Hturn & Hrun).
    apply IH in Hrun as [Hlen Hsilent].
    destruct (turn_Ok_inv _ _ _ _ _ Hturn) as (s2 & _ & _ & Hf & Ht).
    destruct verbose.
    + destruct (Ht eq_refl) as (? & ? & ? & ? & _ & _ & _ & _ & Hp & _).
      rewrite Hp, length_app in Hlen. simpl in Hlen. split; [lia | done].
    + destruct (Hf eq_refl) as [Hp _].
      split; [by rewrite Hlen, Hp|]. intros _. rewrite (Hsilent eq_refl).
      exact Hp.
Qed.

(** X18.  A game stores one progress block per completed turn when it is
    verbose, and none when it is silent. *)
Theorem play_game_printouts (verbose : bool) (n : nat) (l : locals)
    (s s' : State) :
  play_game w verbose n s = (Ok l, s') ->
  length (printouts s')
  = (length (printouts s) + (if verbose then n else O))%nat /\
  (verbose = false -> printouts s' = printouts s).
Proof.
  unfold play_game. intros Hplay.
  apply bind_Ok in Hplay as (source & s2 & Hsource & Hturns).
  apply attr_Ok in Hsource as [-> _].
  by apply turns_printouts_count in Hturns.
Qed.

(** X19.  Once an iteration has raised, looking at the loop for longer
    changes nothing: the game has ended with that exception and that
    state. *)
Theorem play_game_raised (verbose : bool) (m : nat) (s s' : State) (e : exn) :
  play_game w verbose m s = (Raised e, s') ->
  forall n, (m <= n)%nat -> play_game w verbose n s = (Raised e, s').
Proof.
  unfold play_game, bind. intros Hplay n Hn.
  destruct (attr "start_topic" start_topic s) as [[source|e1] s1]; [|exact Hplay].
  replace n with (m + (n - m))%nat by lia.
  rewrite turns_app. unfold bind. rewrite Hplay. reflexivity.
Qed.

End MoreGame.

(** ** The walk *)

Section Walk.

Variable w : World.

(** What one completed iteration does to the list of topics in the log
    and to the visited set. *)
Lemma turn_walk_step (verbose : bool) (l l' : locals) (s s' : State)
    (topics : list value) :
  turn w verbose l s = (Ok l', s') ->
  game_log s !! "current_topic" = Some topics ->
  game_log s' !! "current_topic" = Some (topics ++ [current_topic l]) /\
  visited l' = set_add (current_topic l) (visited l) /\
  (answers_from_list w ->
   forall c, current_topic l' = VStr c -> VStr c ∉ visited l').
Proof.
  intros Hturn Htopics.
  destruct (turn_Ok_inv w _ _ _ _ _ Hturn) as (s1 & Htake & Hvisited & _).
  apply turn_spec in Hturn as (_ & _ & _ & source & summary & _ & Hlog).
  split; [|split; [exact Hvisited|]].
  - rewrite Hlog. unfold logged.
    change (list_to_map _ !! "current_topic") with (Some (current_topic l)).
    rewrite Htopics. reflexivity.
  - intros Hmatch c Hc. rewrite Hc in Htake. rewrite Hvisited.
    apply take_turn_str_inv in Htake
      as (? & links & ? & ? & ? & ? & _ & _ & _ & _ & _ & _ & _ & Hfirst & _).
    apply Hmatch in Hfirst. by apply candidates_fresh in Hfirst.
Qed.

Lemma no_title_twice_snoc (topics : list value) (x : value) :
  no_title_twice topics ->
  (forall c, x = VStr c -> VStr c ∉ topics) ->
  no_title_twice (topics ++ [x]).
Proof.
  intros Hold Hnew i j c Hij Hi Hj.
  apply lookup_snoc_Some in Hj as [[Hjlt Hj]|[Hjeq Hj]].
  - rewrite lookup_app_l in Hi by lia. exact (Hold i j c Hij Hi Hj).
  - rewrite lookup_app_l in Hi by lia.
    apply (Hnew c Hj). by eapply list_elem_of_lookup_2.
Qed.

(** The topics in the log against the visited set, over [n] iterations. *)
Lemma turns_visited (verbose : bool) (n : nat) (l l' : locals) (s s' : State)
    (topics : list value) :
  turns w verbose n l s = (Ok l', s') ->
  game_log s !! "current_topic" = Some topics ->
  (forall x, x ∈ topics <-> x ∈ visited l) ->
  NoDup (visited l) ->
  exists topics',
    game_log s' !! "current_topic" = Some topics' /\
    (forall x, x ∈ topics' <-> x ∈ visited l') /\
    NoDup (visited l') /\
    (length (visited l') <= length (visited l) + n)%nat.
Proof.
  revert l s topics. induction n as [|n IH]; intros l s topics Hrun Hlog Hsame Hnodup.
  - injection Hrun as <- <-. exists topics. repeat split; try apply Hsame; auto.
    lia.
  - simpl in Hrun. apply bind_Ok in Hrun as (l1 & s1 & Hturn & Hrun).
    destruct (turn_walk_step _ _ _ _ _ _ Hturn Hlog) as (Hlog1 & Hv1 & _).
    destruct (IH _ _ _ Hrun Hlog1) as (topics' & Hlog' & Hsame' & Hnodup' & Hlen).
    + intros x. rewrite Hv1, set_add_elem, elem_of_app, list_elem_of_singleton.
      rewrite Hsame. tauto.
    + rewrite Hv1. by apply set_add_NoDup.
    + exists topics'. repeat split; try apply Hsame'; auto.
      rewrite Hv1 in Hlen.
      pose proof (set_add_length (current_topic l) (visited l)). lia.
Qed.

Lemma turns_walk (verbose : bool) (n : nat) (l l' : locals) (s s' : State)
    (topics : list value) :
  answers_from_list w ->
  turns w verbose n l s = (Ok l', s') ->
  game_log s !! "current_topic" = Some topics ->
  (forall x, x ∈ topics -> x ∈ visited l) ->
  (forall c, current_topic l = VStr c -> VStr c ∉ visited l) ->
  no_title_twice topics ->
  exists topics',
    game_log s' !! "current_topic" = Some topics' /\
    (forall x, x ∈ topics' -> x ∈ visited l') /\
    (forall c, current_topic l' = VStr c -> VStr c ∉ visited l') /\
    no_title_twice topics'.
Proof.
  intros Hmatch. revert l s topics.
  induction n as [|n IH]; intros l s topics Hrun Hlog Hsub Hfresh Hnt.
  - injection Hrun as <- <-. exists topics. auto.
  - simpl in Hrun. apply bind_Ok in Hrun as (l1 & s1 & Hturn & Hrun).
    destruct (turn_walk_step _ _ _ _ _ _ Hturn Hlog) as (Hlog1 & Hv1 & Hnext).
    apply (IH _ _ _ Hrun Hlog1).
    + intros x. rewrite Hv1, set_add_elem, elem_of_app, list_elem_of_singleton.
      intros [Hx | ->]; auto.
    + by apply Hnext.
    + apply no_title_twice_snoc; [exact Hnt|].
      intros c Hc Hin. apply (Hfresh c Hc). by apply Hsub.
Qed.

(** X20.  With a matcher that answers from the list it is given, a game
    never comes back to an article: no title occurs twice among the topics
    recorded in the log, and the topic the loop is about to process, when
    it is a title, is none of them. *)
Theorem walk_never_returns (start target : option string) (s0 s1 s' : State)
    (verbose : bool) (n : nat) (l : locals) :
  answers_from_list w ->
  __init__ w start target s0 = (Ok tt, s1) ->
  play_game w verbose n s1 = (Ok l, s') ->
  exists topics,
    game_log s' !! "current_topic" = Some topics /\
    no_title_twice topics /\
    (forall c, current_topic l = VStr c -> VStr c ∉ topics).
Proof.
  intros Hmatch Hinit Hplay.
  apply init_game_log in Hinit as [Hempty _].
  unfold play_game in Hplay.
  apply bind_Ok in Hplay as (source & s2 & Hsource & Hturns).
  apply attr_Ok in Hsource as [-> _].
  destruct (turns_walk verbose n _ _ _ _ [] Hmatch Hturns)
    as (topics & Hlog & Hsub & Hfresh & Hnt).
  - rewrite Hempty. reflexivity.
  - intros x Hx. by apply elem_of_nil in Hx.
  - intros c _ Hin. by apply elem_of_nil in Hin.
  - intros i j c _ Hi. by rewrite lookup_nil in Hi.
  - exists topics. repeat split; try assumption.
    intros c Hc Hin. apply (Hfresh c Hc). by apply Hsub.
Qed.

(** X21.  After [n] completed turns the visited set holds exactly the topics
    recorded in the log, each once, so at most [n] of them. *)
Theorem visited_is_the_log (start target : option string) (s0 s1 s' : State)
    (verbose : bool) (n : nat) (l : locals) :
  __init__ w start target s0 = (Ok tt, s1) ->
  play_game w verbose n s1 = (Ok l, s') ->
  exists topics,
    game_log s' !! "current_topic" = Some topics /\
    (forall x, x ∈ topics <-> x ∈ visited l) /\
    NoDup (visited l) /\
    (length (visited l) <= n)%nat.
Proof.
  intros Hinit Hplay.
  apply init_game_log in Hinit as [Hempty _].
  unfold play_game in Hplay.
  apply bind_Ok in Hplay as (source & s2 & Hsource & Hturns).
  apply attr_Ok in Hsource as [-> _].
  destruct (turns_visited verbose n _ _ _ _ [] Hturns)
    as (topics & Hlog & Hsame & Hnodup & Hlen).
  - rewrite Hempty. reflexivity.
  - done.
  - constructor.
  - exists topics. simpl in Hlen. auto.
Qed.

End Walk.

(** ** The further properties at work *)

Lemma init_rejects_bad_key_witness :
  __init__ locked (Some "Test") (Some "Paris") (boot None)
  = (Raised (AssertionError "secre... is not a valid key"), boot None) /\
  __init__ accented (Some "Test") (Some "Paris") (boot None)
  = (Raised (AssertionError "ééééé... is not a valid key"), boot None).
Proof.
  split.
  - exact (init_rejects_bad_key locked (Some "Test") (Some "Paris") (boot None)
             eq_refl eq_refl).
  - exact (init_rejects_bad_key accented (Some "Test") (Some "Paris") (boot None)
             eq_refl eq_refl).
Defined.

Lemma init_key_witness :
  exists key, environ (session "Test" "Paris") = Some key /\
              startswith "nvapi-" key = true.
Proof.
  destruct (init_key xmas (Some "Test") (Some "Paris") (boot None)
              (session "Test" "Paris") eq_refl)
    as (key & Hkey & Hvalid & _).
  exists key. split; assumption.
Defined.

Lemma init_quiet_witness :
  game_log (session "Test" "Paris") = empty_log /\
  printouts (session "Test" "Paris") = [].
Proof.
  exact (proj2 (proj2 (init_quiet xmas (Some "Test") (Some "Paris") (boot None)))
           (session "Test" "Paris") eq_refl).
Defined.

Lemma get_topics_resolution_witness :
  random_draws (snd (get_topics xmas (Some "") (Some "Paris") (boot None))) = 1%nat.
Proof.
  assert (get_topics xmas (Some "") (Some "Paris") (boot None)
          = (Ok tt, snd (get_topics xmas (Some "") (Some "Paris") (boot None))))
    as Hrun by (vm_compute; reflexivity).
  destruct (get_topics_resolution xmas (Some "") (Some "Paris") (boot None) _ Hrun)
    as [Hdraws _].
  rewrite Hdraws. reflexivity.
Defined.

Lemma init_same_random_page_witness :
  fst (__init__ stuck None None (boot (Some "nvapi-0000")))
  = Raised (AssertionError "Please enter different start and target topics.").
Proof.
  exact (init_same_random_page stuck (boot (Some "nvapi-0000")) "Main_Page"
           eq_refl eq_refl eq_refl).
Defined.

Lemma take_turn_one_call_witness :
  exists prompt,
    llm_calls (snd (take_turn xmas (VStr "Test") [VStr "Test"]
                      (session "Test" "Paris"))) = [] ++ [prompt].
Proof.
  apply (proj1 (proj2 (take_turn_one_call xmas (VStr "Test") [VStr "Test"]
                         (session "Test" "Paris"))) "Quiz").
  vm_compute. reflexivity.
Defined.

Lemma take_turn_summary_witness :
  current_summary (snd (take_turn xmas (VStr "Test") [VStr "Test"]
                          (session "Test" "Paris"))) = Some "About Test".
Proof.
  apply (proj2 (take_turn_summary xmas (VStr "Test") [VStr "Test"]
                  (session "Test" "Paris"))).
  reflexivity.
Defined.

Lemma take_turn_nothing_to_choose_witness :
  candidates ["Exam"; "Quiz"] [VStr "Exam"; VStr "Quiz"] = [] /\
  fst (take_turn xmas (VStr "Quiz") [VStr "Exam"; VStr "Quiz"]
         (session "Test" "Paris")) = Raised IndexError.
Proof.
  split; [reflexivity|].
  destruct (take_turn_nothing_to_choose xmas (VStr "Quiz")
              [VStr "Exam"; VStr "Quiz"] (session "Test" "Paris")
              "About Quiz" ["Exam"; "Quiz"] "Paris" "Test"
              eq_refl eq_refl eq_refl eq_refl eq_refl (fun _ => eq_refl))
    as (_ & _ & Hraise).
  eapply Hraise. reflexivity.
Defined.

Lemma xmas_answers_from_list : answers_from_list xmas.
Proof. intros proposed pages c. apply exact_match_answers. Qed.

Lemma take_turn_choice_witness :
  exists links,
    validate_pages xmas (VStr "Test") = Ok links /\
    "Quiz" ∈ links /\
    "Quiz" ∈ candidates links [VStr "Test"] /\
    (VStr "Quiz" ∉ [VStr "Test"]) /\
    target_topic (session "Test" "Paris") <> Some "Quiz".
Proof.
  apply (take_turn_choice xmas (VStr "Test") [VStr "Test"]
           (session "Test" "Paris")
           (snd (take_turn xmas (VStr "Test") [VStr "Test"]
                   (session "Test" "Paris")))
           "Quiz" xmas_answers_from_list).
  vm_compute. reflexivity.
Defined.

Lemma take_turn_prints_witness :
  length (stdout (snd (take_turn xmas (VStr "Test") [VStr "Test"]
                         (session "Test" "Paris")))) = 7%nat.
Proof.
  assert (take_turn xmas (VStr "Test") [VStr "Test"] (session "Test" "Paris")
          = (Ok (VStr "Quiz"),
             snd (take_turn xmas (VStr "Test") [VStr "Test"]
                    (session "Test" "Paris")))) as Hrun
    by (vm_compute; reflexivity).
  destruct (take_turn_prints xmas _ _ _ _ _ Hrun)
    as (prompt & reply & proposed & _ & _ & Hout).
  rewrite Hout. reflexivity.
Defined.

Lemma verbose_turn_short_circuit_witness :
  fst (turn xmas true
         {| turn_num := 1; current_topic := VStr "Test"; visited := [] |}
         (session "Test" "Christmas"))
  = Raised (AttributeError "'tuple' object has no attribute 'replace'").
Proof.
  refine (proj1 (verbose_turn_short_circuit xmas
           {| turn_num := 1; current_topic := VStr "Test"; visited := [] |}
           (session "Test" "Christmas") "Test" "About Test"
           ["Exam"; "Christmas"; "Quiz"] "Christmas" "Test"
           eq_refl eq_refl eq_refl eq_refl eq_refl _ _)).
  - apply (bool_decide_unpack _). vm_compute. exact I.
  - intros key Hkey. apply (bool_decide_unpack _).
    revert Hkey. unfold log_keys. rewrite !elem_of_cons, elem_of_nil.
    intros [->|[->|[->|[->|[->|[]]]]]]; vm_compute; exact I.
Defined.

Lemma verbose_turn_block_witness :
  printouts (snd (turn xmas true
                    {| turn_num := 1; current_topic := VStr "Test_page";
                       visited := [] |}
                    (session "Test_page" "Paris")))
  = [progress_block 1 "Test_page" "Test_page" "Quiz" "Paris"].
Proof.
  assert (turn xmas true
            {| turn_num := 1; current_topic := VStr "Test_page"; visited := [] |}
            (session "Test_page" "Paris")
          = (Ok {| turn_num := 2; current_topic := VStr "Quiz";
                   visited := [VStr "Test_page"] |},
             snd (turn xmas true
                    {| turn_num := 1; current_topic := VStr "Test_page";
                       visited := [] |}
                    (session "Test_page" "Paris")))) as Hrun
    by (vm_compute; reflexivity).
  destruct (verbose_turn_block xmas _ _ _ _ Hrun)
    as (source & target & c & c' & lines & Hs & Ht & Hc & Hc' & Hp & _).
  rewrite Hp. simpl in Hs, Ht, Hc, Hc'. simplify_eq. reflexivity.
Defined.

Lemma play_game_printouts_witness :
  length (printouts (snd (play_game xmas true 2 (session "Test" "Paris")))) = 2%nat.
Proof.
  assert (play_game xmas true 2 (session "Test" "Paris")
          = (Ok {| turn_num := 3; current_topic := VStr "Exam";
                   visited := [VStr "Test"; VStr "Quiz"] |},
             snd (play_game xmas true 2 (session "Test" "Paris")))) as Hrun
    by (vm_compute; reflexivity).
  destruct (play_game_printouts xmas true 2 _ _ _ Hrun) as [Hlen _].
  rewrite Hlen. reflexivity.
Defined.

Lemma play_game_raised_witness :
  fst (play_game xmas true 5 (session "Test" "Christmas"))
  = Raised (AttributeError "'tuple' object has no attribute 'replace'").
Proof.
  assert (play_game xmas true 1 (session "Test" "Christmas")
          = (Raised (AttributeError "'tuple' object has no attribute 'replace'"),
             snd (play_game xmas true 1 (session "Test" "Christmas")))) as Hrun
    by (vm_compute; reflexivity).
  rewrite (play_game_raised xmas true 1 _ _ _ Hrun 5%nat); [reflexivity | lia].
Defined.

Lemma walk_never_returns_witness :
  exists topics,
    game_log (snd (play_game xmas false 2 (session "Test" "Paris")))
      !! "current_topic" = Some topics /\
    no_title_twice topics /\
    (forall c, VStr "Exam" = VStr c -> VStr c ∉ topics).
Proof.
  assert (__init__ xmas (Some "Test") (Some "Paris") (boot None)
          = (Ok tt, session "Test" "Paris")) as Hinit
    by (vm_compute; reflexivity).
  assert (play_game xmas false 2 (session "Test" "Paris")
          = (Ok {| turn_num := 3; current_topic := VStr "Exam";
                   visited := [VStr "Test"; VStr "Quiz"] |},
             snd (play_game xmas false 2 (session "Test" "Paris")))) as Hplay
    by (vm_compute; reflexivity).
  exact (walk_never_returns xmas _ _ _ _ _ _ _ _
           xmas_answers_from_list Hinit Hplay).
Defined.

Lemma visited_is_the_log_witness :
  exists topics,
    game_log (snd (play_game xmas false 2 (session "Test" "Paris")))
      !! "current_topic" = Some topics /\
    (forall x, x ∈ topics <-> x ∈ [VStr "Test"; VStr "Quiz"]) /\
    NoDup [VStr "Test"; VStr "Quiz"] /\
    (length [VStr "Test"; VStr "Quiz"] <= 2)%nat.
Proof.
  assert (__init__ xmas (Some "Test") (Some "Paris") (boot None)
          = (Ok tt, session "Test" "Paris")) as Hinit
    by (vm_compute; reflexivity).
  assert (play_game xmas false 2 (session "Test" "Paris")
          = (Ok {| turn_num := 3; current_topic := VStr "Exam";
                   visited := [VStr "Test"; VStr "Quiz"] |},
             snd (play_game xmas false 2 (session "Test" "Paris")))) as Hplay
    by (vm_compute; reflexivity).
  exact (visited_is_the_log xmas _ _ _ _ _ _ _ _ Hinit Hplay).
Defined.

(** ** What a game leaves alone, and what it costs *)

Lemma log_turn_only_log (dict : list (string * value)) (s : State) :
  snd (log_turn dict s) = set_game_log (game_log (snd (log_turn dict s))) s.
Proof.
  revert s. induction dict as [|[k v] rest IH]; intros s; simpl.
  - by rewrite set_game_log_same.
  - unfold bind, log_append.
    destruct (game_log s !! k) as [xs|]; simpl; [|by rewrite set_game_log_same].
    rewrite IH at 1. reflexivity.
Qed.

Lemma report_keeps (l : locals) (next : value) (s : State) :
  let s' := snd (report l next s) in
  start_topic s' = start_topic s /\ target_topic s' = target_topic s /\
  environ s' = environ s /\ llm_calls s' = llm_calls s.
Proof.
  unfold report, bind, lift, modify, attr. simpl.
  repeat (case_match; simpl in *; simplify_eq; try done).
Qed.

Section Cost.

Variable w : World.

(** Any iteration, completed or not, against the turn it takes. *)
Lemma turn_keeps (verbose : bool) (l : locals) (s : State) :
  let s1 := snd (take_turn w (current_topic l)
                   (set_add (current_topic l) (visited l)) s) in
  let s' := snd (turn w verbose l s) in
  start_topic s' = start_topic s /\ target_topic s' = target_topic s /\
  environ s' = environ s /\ llm_calls s' = llm_calls s1.
Proof.
  cbv zeta.
  destruct (take_turn_frame w (current_topic l)
              (set_add (current_topic l) (visited l)) s)
    as (_ & Hst & Htg & _ & Henv).
  unfold turn, bind.
  destruct (take_turn w (current_topic l) _ s) as [[next|e] s1];
    cbn [snd] in *; [|done].
  unfold attr.
  destruct (start_topic s1) as [source|] eqn:Hs1; cbv beta iota; cbn [snd];
    [|repeat split; congruence].
  destruct (current_summary s1) as [summary|] eqn:Hc1; cbv beta iota; cbn [snd];
    [|repeat split; congruence].
  pose proof (log_turn_only_log
                (turn_dict source (turn_num l) (current_topic l) summary) s1)
    as Hlog.
  destruct (log_turn _ s1) as [[[]|e] s4]; cbv beta iota; cbn [snd] in *.
  2:{ rewrite Hlog. cbn. repeat split; congruence. }
  assert (start_topic s4 = start_topic s /\ target_topic s4 = target_topic s /\
          environ s4 = environ s /\ llm_calls s4 = llm_calls s1)
    as (H1 & H2 & H3 & H4)
    by (rewrite Hlog; cbn; repeat split; congruence).
  destruct verbose.
  - pose proof (report_keeps l next s4) as (R1 & R2 & R3 & R4).
    destruct (report l next s4) as [[[]|e] s5]; unfold ret; cbn [snd] in *;
      repeat split; congruence.
  - unfold ret. cbn [snd]. repeat split; congruence.
Qed.

(** X22.  However a game goes and however it ends, it never changes the
    start topic, the target topic or the key of the session. *)
Theorem play_game_keeps_session (verbose : bool) (n : nat) (s : State) :
  start_topic (snd (play_game w verbose n s)) = start_topic s /\
  target_topic (snd (play_game w verbose n s)) = target_topic s /\
  environ (snd (play_game w verbose n s)) = environ s.
Proof.
  assert (forall l s,
            start_topic (snd (turns w verbose n l s)) = start_topic s /\
            target_topic (snd (turns w verbose n l s)) = target_topic s /\
            environ (snd (turns w verbose n l s)) = environ s) as Hturns.
  { induction n as [|m IH]; intros l s1; [done|].
    simpl. unfold bind.
    pose proof (turn_keeps verbose l s1) as (H1 & H2 & H3 & _).
    destruct (turn w verbose l s1) as [[l1|e] s2]; simpl in *; [|done].
    destruct (IH l1 s2) as (I1 & I2 & I3). repeat split; congruence. }
  unfold play_game, bind, attr.
  destruct (start_topic s) as [source|] eqn:Hsource; simpl; [|by rewrite Hsource].
  rewrite <- Hsource. apply Hturns.
Qed.

(** X23.  A game only adds to the list of prompts sent to the model, and
    [n] iterations add at most [n] prompts. *)
Theorem play_game_model_calls (verbose : bool) (n : nat) (s : State) :
  exists prompts,
    llm_calls (snd (play_game w verbose n s)) = llm_calls s ++ prompts /\
    (length prompts <= n)%nat.
Proof.
  assert (forall l s,
            exists prompts,
              llm_calls (snd (turns w verbose n l s)) = llm_calls s ++ prompts /\
              (length prompts <= n)%nat) as Hturns.
  { induction n as [|m IH]; intros l s1.
    - exists []. simpl. rewrite app_nil_r. split; [reflexivity | lia].
    - simpl. unfold bind.
      pose proof (turn_keeps verbose l s1) as (_ & _ & _ & Hcalls).
      simpl in Hcalls.
      assert (exists first, llm_calls (snd (turn w verbose l s1))
                            = llm_calls s1 ++ first /\ (length first <= 1)%nat)
        as (first & Hfirst & Hlen).
      { rewrite Hcalls.
        destruct (take_turn_calls w (current_topic l)
                    (set_add (current_topic l) (visited l)) s1) as [->|[p ->]].
        - exists []. rewrite app_nil_r. split; [reflexivity | simpl; lia].
        - exists [p]. split; [reflexivity | simpl; lia]. }
      destruct (turn w verbose l s1) as [[l1|e] s2]; simpl in *.
      + destruct (IH l1 s2) as (rest & Hrest & Hlen').
        exists (first ++ rest). rewrite Hrest, Hfirst, app_assoc, length_app.
        split; [reflexivity | lia].
      + exists first. split; [exact Hfirst | lia]. }
  unfold play_game, bind, attr.
  destruct (start_topic s) as [source|]; simpl.
  - apply Hturns.
  - exists []. rewrite app_nil_r. split; [reflexivity | simpl; lia].
Qed.

End Cost.
